(** * Endpoint resolution of the registry service: [lookupV2Endpoints]

    A shallow embedding of [registry/service_v2.go] and the properties of
    the endpoint list it returns.

    The function reads the mirror list of the service configuration and
    calls into code that lives in other files of the package
    ([newTLSConfig], [isSecureIndex], [allowNondistributableArtifacts],
    [invalidParam], the constants [DefaultNamespace], [IndexHostname],
    [DefaultV2Registry]) and into libraries ([net/url], [strings],
    [tlsconfig]).  Those are the fields of the class [Externals]; every
    theorem holds for each implementation of them, and the module [Demo]
    at the end gives one on which the theorems are run. *)

From Stdlib Require Import Ascii.
From Stdlib Require String.
From stdpp Require Import base list strings gmap.

(** ** Go values *)

(** [strings.HasPrefix(s, prefix)]: Go strings are byte strings, and so
    are Rocq's. *)
Definition strings_HasPrefix (s prefix : string) : bool :=
  String.prefix prefix s.

(** The fields of [net/url.URL] that hold text.  The descriptors of the
    custom-hostname branch are built as [&url.URL{Scheme: .., Host: ..}],
    every other field at its zero value. *)
Record url_URL : Type := mk_url_URL {
  Scheme : string;
  Opaque : string;
  User : option (string * option string);
  Host : string;
  Path : string;
  RawPath : string;
  ForceQuery : bool;
  RawQuery : string;
  Fragment : string;
  RawFragment : string
}.

(** [&url.URL{Scheme: scheme, Host: host}] *)
Definition url_URL_of (scheme host : string) : url_URL :=
  {| Scheme := scheme; Opaque := ""; User := None; Host := host;
     Path := ""; RawPath := ""; ForceQuery := false; RawQuery := "";
     Fragment := ""; RawFragment := "" |}.

(** Go's [error] values.  What the resolver and its callers tell apart is
    whether an error is of the invalid-parameter kind.

    Modelled from the spec: [invalidParam] is declared in
    [registry/errors.go], which is not part of the sources at hand; the
    spec names the kind of error it makes ("fail with an invalid-parameter
    error if parsing fails") and the other kind the resolver can return
    ("any error surfaced by the TLS-configuration collaborator"). *)
Inductive error : Type :=
| errorString (msg : string)
| errInvalidParameter (cause : error).

Definition invalidParam (err : error) : error := errInvalidParameter err.

Definition IsInvalidParameter (err : error) : bool :=
  match err with
  | errInvalidParameter _ => true
  | errorString _ => false
  end.

(** A Go call returning [(v, err)] of which the caller reads [v] only
    when [err == nil]. *)
Inductive result (A : Type) : Type :=
| Ok (v : A)
| Err (err : error).
Arguments Ok {A} v.
Arguments Err {A} err.

(** [type APIVersion int], with [APIVersion1 = iota + 1] and
    [APIVersion2] next. *)
Inductive APIVersion : Type := APIVersion1 | APIVersion2.

(** Control flow of a loop body that may [return] from the enclosing
    function: [Return r] leaves the function with [r], [Continue a] goes
    on with the loop state [a]. *)
Inductive flow (R A : Type) : Type :=
| Return (r : R)
| Continue (a : A).
Arguments Return {R A} r.
Arguments Continue {R A} a.

Section Registry.

(** [serviceConfig] (registry/config.go) and [tls.Config] (crypto/tls)
    are declared outside the file; the resolver reads [Mirrors] of the
    one and [InsecureSkipVerify] of the other, and hands both on
    untouched. *)
Variable serviceConfig : Type.
Variable tls_Config : Type.

(** [APIEndpoint] (registry/types.go); a field left out of a composite
    literal has Go's zero value, [false] for the booleans. *)
Record APIEndpoint : Type := mkAPIEndpoint {
  Mirror : bool;
  URL : url_URL;
  Version : APIVersion;
  AllowNondistributableArtifacts : bool;
  Official : bool;
  TrimHostname : bool;
  TLSConfig : tls_Config
}.

(** [defaultService]: the resolver reads [s.config] only. *)
Record defaultService : Type := mkService { config : serviceConfig }.

(** What [lookupV2Endpoints] takes from outside its file. *)
Class Externals : Type := {
  Mirrors : serviceConfig -> list string;
  InsecureSkipVerify : tls_Config -> bool;
  DefaultNamespace : string;
  IndexHostname : string;
  DefaultV2Registry : url_URL;
  isSecureIndex : serviceConfig -> string -> bool;
  allowNondistributableArtifacts : serviceConfig -> string -> bool;
  newTLSConfig : string -> bool -> result tls_Config;
  url_Parse : string -> result url_URL;
  tlsconfig_ServerDefault : tls_Config
}.

(** The same externals with another URL parser. *)
Definition with_url_Parse (parse : string -> result url_URL) (E : Externals)
  : Externals :=
  {| Mirrors := Mirrors; InsecureSkipVerify := InsecureSkipVerify;
     DefaultNamespace := DefaultNamespace; IndexHostname := IndexHostname;
     DefaultV2Registry := DefaultV2Registry;
     isSecureIndex := isSecureIndex;
     allowNondistributableArtifacts := allowNondistributableArtifacts;
     newTLSConfig := newTLSConfig; url_Parse := parse;
     tlsconfig_ServerDefault := tlsconfig_ServerDefault |}.

Context {E : Externals}.

(** Lines 13-15, the address handed to [url.Parse]:
<<
  if !strings.HasPrefix(mirror, "http://") && !strings.HasPrefix(mirror, "https://") {
      mirror = "https://" + mirror
  }
>> *)
Definition mirrorAddress (mirror : string) : string :=
  if negb (strings_HasPrefix mirror "http://")
     && negb (strings_HasPrefix mirror "https://")
  then "https://" +:+ mirror
  else mirror.

(** The descriptor appended at lines 24-30. *)
Definition mirrorEndpoint (mirrorURL : url_URL) (mirrorTLSConfig : tls_Config)
  : APIEndpoint :=
  {| URL := mirrorURL;
     Version := APIVersion2;
     Mirror := true;
     TrimHostname := true;
     TLSConfig := mirrorTLSConfig;
     AllowNondistributableArtifacts := false;
     Official := false |}.

(** The descriptor appended at lines 32-38. *)
Definition officialEndpoint : APIEndpoint :=
  {| URL := DefaultV2Registry;
     Version := APIVersion2;
     Official := true;
     TrimHostname := true;
     TLSConfig := tlsconfig_ServerDefault;
     Mirror := false;
     AllowNondistributableArtifacts := false |}.

(** The descriptors of lines 50-59 ([scheme = "https"]) and 63-73
    ([scheme = "http"]). *)
Definition hostEndpoint (scheme hostname : string) (ana : bool)
    (tlsConfig : tls_Config) : APIEndpoint :=
  {| URL := url_URL_of scheme hostname;
     Version := APIVersion2;
     AllowNondistributableArtifacts := ana;
     TrimHostname := true;
     TLSConfig := tlsConfig;
     Mirror := false;
     Official := false |}.

(** Lines 12-31, [for _, mirror := range s.config.Mirrors], over the
    mirrors still to visit and the [endpoints] appended so far.  The
    two [return nil, ...] leave the function. *)
Fixpoint rangeMirrors (s : defaultService) (mirrors : list string)
    (endpoints : list APIEndpoint)
  : flow (list APIEndpoint * option error) (list APIEndpoint) :=
  match mirrors with
  | [] => Continue endpoints
  | mirror :: rest =>
      let mirror := mirrorAddress mirror in
      match url_Parse mirror with
      | Err err => Return ([], Some (invalidParam err))
      | Ok mirrorURL =>
          match newTLSConfig (Host mirrorURL)
                  (isSecureIndex (config s) (Host mirrorURL)) with
          | Err err => Return ([], Some err)
          | Ok mirrorTLSConfig =>
              rangeMirrors s rest
                (endpoints ++ [mirrorEndpoint mirrorURL mirrorTLSConfig])
          end
      end
  end.

(** [func (s *defaultService) lookupV2Endpoints(hostname string)
    (endpoints []APIEndpoint, err error)]: the pair Go returns, a nil
    slice as [[]] and a nil error as [None]. *)
Definition lookupV2Endpoints (s : defaultService) (hostname : string)
  : list APIEndpoint * option error :=
  if String.eqb hostname DefaultNamespace
     || String.eqb hostname IndexHostname
  then
    match rangeMirrors s (Mirrors (config s)) [] with
    | Return r => r
    | Continue endpoints => (endpoints ++ [officialEndpoint], None)
    end
  else
    match newTLSConfig hostname (isSecureIndex (config s) hostname) with
    | Err err => ([], Some err)
    | Ok tlsConfig =>
        let ana := allowNondistributableArtifacts (config s) hostname in
        let endpoints := [hostEndpoint "https" hostname ana tlsConfig] in
        let endpoints :=
          if InsecureSkipVerify tlsConfig
          then endpoints ++ [hostEndpoint "http" hostname ana tlsConfig]
          else endpoints in
        (endpoints, None)
    end.

(** ** Reading aids for the statements *)

(** What one turn of the loop makes of a mirror: its descriptor, or the
    error the function returns. *)
Definition resolveMirror (s : defaultService) (mirror : string)
  : result APIEndpoint :=
  match url_Parse (mirrorAddress mirror) with
  | Err err => Err (invalidParam err)
  | Ok mirrorURL =>
      match newTLSConfig (Host mirrorURL)
              (isSecureIndex (config s) (Host mirrorURL)) with
      | Err err => Err err
      | Ok mirrorTLSConfig => Ok (mirrorEndpoint mirrorURL mirrorTLSConfig)
      end
  end.

(** The mirror parses and gets a TLS configuration. *)
Definition mirrorResolves (s : defaultService) (mirror : string) : Prop :=
  exists mirrorURL mirrorTLSConfig,
    url_Parse (mirrorAddress mirror) = Ok mirrorURL /\
    newTLSConfig (Host mirrorURL) (isSecureIndex (config s) (Host mirrorURL))
      = Ok mirrorTLSConfig.

(** Modelled from the spec: [newTLSConfig] is declared in
    [registry/registry.go], which is not part of the sources at hand.  The
    spec's interface of the TLS configuration builder: it "returns a
    configuration whose skip-verification flag is the logical negation of
    secure". *)
Definition newTLSConfig_skips_unless_secure : Prop :=
  forall (host : string) (secure : bool) (tlsConfig : tls_Config),
    newTLSConfig host secure = Ok tlsConfig ->
    InsecureSkipVerify tlsConfig = negb secure.

(** [net/url.Parse] reads the scheme off the front of the address up to
    the first colon: an address that begins with [http://] parses, when
    it parses, to a URL of scheme [http]. *)
Definition url_Parse_keeps_http : Prop :=
  forall (rawURL : string) (u : url_URL),
    strings_HasPrefix rawURL "http://" = true ->
    url_Parse rawURL = Ok u -> Scheme u = "http".

End Registry.

Arguments Mirror {tls_Config} _.
Arguments URL {tls_Config} _.
Arguments Version {tls_Config} _.
Arguments AllowNondistributableArtifacts {tls_Config} _.
Arguments Official {tls_Config} _.
Arguments TrimHostname {tls_Config} _.
Arguments TLSConfig {tls_Config} _.
Arguments mkAPIEndpoint {tls_Config} _ _ _ _ _ _ _.
Arguments config {serviceConfig} _.
Arguments mkService {serviceConfig} _.
Arguments Mirrors {serviceConfig tls_Config Externals} _.
Arguments InsecureSkipVerify {serviceConfig tls_Config Externals} _.
Arguments DefaultNamespace {serviceConfig tls_Config Externals}.
Arguments IndexHostname {serviceConfig tls_Config Externals}.
Arguments DefaultV2Registry {serviceConfig tls_Config Externals}.
Arguments isSecureIndex {serviceConfig tls_Config Externals} _ _.
Arguments allowNondistributableArtifacts {serviceConfig tls_Config Externals} _ _.
Arguments newTLSConfig {serviceConfig tls_Config Externals} _ _.
Arguments url_Parse {serviceConfig tls_Config Externals} _.
Arguments tlsconfig_ServerDefault {serviceConfig tls_Config Externals}.
Arguments with_url_Parse {serviceConfig tls_Config} parse E.
Arguments mirrorEndpoint {tls_Config} mirrorURL mirrorTLSConfig.
Arguments officialEndpoint {serviceConfig tls_Config E}.
Arguments hostEndpoint {tls_Config} scheme hostname ana tlsConfig.
Arguments rangeMirrors {serviceConfig tls_Config E} s mirrors endpoints.
Arguments lookupV2Endpoints {serviceConfig tls_Config E} s hostname.
Arguments resolveMirror {serviceConfig tls_Config E} s mirror.
Arguments mirrorResolves {serviceConfig tls_Config E} s mirror.
Arguments newTLSConfig_skips_unless_secure {serviceConfig tls_Config} E.
Arguments url_Parse_keeps_http {serviceConfig tls_Config} E.

(** ** The spec's words for line 13 *)

(** The spec has the resolver prefix a mirror address "if it carries no
    explicit scheme".  An address carries an explicit scheme when it
    starts with a scheme name, a letter followed by letters, digits,
    [+], [-] or [.], and [://] comes next.  This is the reading of the
    spec's words, to be compared with the two [strings.HasPrefix] tests
    of [mirrorAddress]. *)
Definition isLetter (c : ascii) : bool :=
  (Ascii.leb "a" c && Ascii.leb c "z") || (Ascii.leb "A" c && Ascii.leb c "Z").

Definition isSchemeChar (c : ascii) : bool :=
  isLetter c || (Ascii.leb "0" c && Ascii.leb c "9")
  || Ascii.eqb c "+" || Ascii.eqb c "-" || Ascii.eqb c ".".

Fixpoint schemeThenSlashes (rest : string) : bool :=
  match rest with
  | EmptyString => false
  | String c rest' =>
      if isSchemeChar c then schemeThenSlashes rest'
      else String.prefix "://" rest
  end.

Definition carriesExplicitScheme (address : string) : bool :=
  match address with
  | EmptyString => false
  | String c rest => isLetter c && schemeThenSlashes rest
  end.

(** ** An implementation of the externals

    A registry configuration small enough to run the resolver on: the
    hosts named insecure are the insecure ones, the TLS builder fails on
    the certificates of one host, and the parser reads addresses of the
    shape [scheme://host/path]. *)
Module Demo.

Record serviceConfig : Type := {
  mirrors : list string;
  insecureRegistries : list string;
  nondistributableHosts : list string
}.

Record tlsConfig : Type := {
  skipVerify : bool;
  certsDir : string
}.

Definition listed (host : string) (hosts : list string) : bool :=
  existsb (String.eqb host) hosts.

Definition secureIndex (cfg : serviceConfig) (host : string) : bool :=
  negb (listed host (insecureRegistries cfg)).

Definition nondistributable (cfg : serviceConfig)
    (host : string) : bool :=
  listed host (nondistributableHosts cfg).

(** Certificates are read for secure hosts only; those of
    [badcerts.test] do not load. *)
Definition tlsFor (host : string) (secure : bool) : result tlsConfig :=
  if secure && String.eqb host "badcerts.test"
  then Err (errorString "x509: malformed certificate")
  else Ok {| skipVerify := negb secure;
             certsDir := if secure then "/etc/docker/certs.d/" +:+ host
                         else "" |}.

(** [cut sep s]: [s] up to its first [sep], and the rest from there. *)
Fixpoint cut (sep : ascii) (s : string) : string * string :=
  match s with
  | EmptyString => (EmptyString, EmptyString)
  | String c s' =>
      if Ascii.eqb c sep then (EmptyString, s)
      else let (before, after) := cut sep s' in (String c before, after)
  end.

Fixpoint contains (c : ascii) (s : string) : bool :=
  match s with
  | EmptyString => false
  | String c' s' => Ascii.eqb c c' || contains c s'
  end.

Definition dropPrefix (n : nat) (s : string) : string :=
  String.substring n (String.length s - n) s.

(** The host and path after [scheme://]; as in [net/url], a host that
    opens a bracket and does not close it is an error. *)
Definition parseAuthority (scheme rest : string) : result url_URL :=
  let (host, path) := cut "/" rest in
  if String.prefix "[" host && negb (contains "]" host)
  then Err (errorString "missing ']' in host")
  else Ok {| Scheme := scheme; Opaque := ""; User := None; Host := host;
             Path := path; RawPath := ""; ForceQuery := false;
             RawQuery := ""; Fragment := ""; RawFragment := "" |}.

Definition parse (rawURL : string) : result url_URL :=
  if String.prefix "http://" rawURL
  then parseAuthority "http" (dropPrefix 7 rawURL)
  else if String.prefix "https://" rawURL
  then parseAuthority "https" (dropPrefix 8 rawURL)
  else Ok {| Scheme := ""; Opaque := ""; User := None; Host := "";
             Path := rawURL; RawPath := ""; ForceQuery := false;
             RawQuery := ""; Fragment := ""; RawFragment := "" |}.

#[global] Instance externals : Externals serviceConfig tlsConfig := {|
  Mirrors := mirrors;
  InsecureSkipVerify := skipVerify;
  DefaultNamespace := "docker.io";
  IndexHostname := "index.docker.io";
  DefaultV2Registry := url_URL_of "https" "registry-1.docker.io";
  isSecureIndex := secureIndex;
  allowNondistributableArtifacts := nondistributable;
  newTLSConfig := tlsFor;
  url_Parse := parse;
  tlsconfig_ServerDefault := {| skipVerify := false; certsDir := "" |}
|}.

(** The same collaborators written another way: equal results on every
    argument. *)
Definition externals' : Externals serviceConfig tlsConfig := {|
  Mirrors := fun cfg => mirrors cfg;
  InsecureSkipVerify := fun c => negb (negb (skipVerify c));
  DefaultNamespace := "docker.io";
  IndexHostname := "index.docker.io";
  DefaultV2Registry := url_URL_of "https" "registry-1.docker.io";
  isSecureIndex := fun cfg host =>
    forallb (fun h => negb (String.eqb host h)) (insecureRegistries cfg);
  allowNondistributableArtifacts := nondistributable;
  newTLSConfig := fun host secure =>
    if secure then tlsFor host true else tlsFor host false;
  url_Parse := fun rawURL =>
    match parse rawURL with Ok u => Ok u | Err err => Err err end;
  tlsconfig_ServerDefault := {| skipVerify := false; certsDir := "" |}
|}.

(** A TLS builder that reports the certificates it cannot read as an
    invalid-parameter error; its flag is the negation of the
    classification all the same. *)
Definition tlsFor_invalid (host : string) (secure : bool) : result tlsConfig :=
  if secure && String.eqb host "badcerts.test"
  then Err (invalidParam (errorString "certs.d/badcerts.test: permission denied"))
  else Ok {| skipVerify := negb secure;
             certsDir := if secure then "/etc/docker/certs.d/" +:+ host
                         else "" |}.

Definition externals_invalid : Externals serviceConfig tlsConfig := {|
  Mirrors := mirrors;
  InsecureSkipVerify := skipVerify;
  DefaultNamespace := "docker.io";
  IndexHostname := "index.docker.io";
  DefaultV2Registry := url_URL_of "https" "registry-1.docker.io";
  isSecureIndex := secureIndex;
  allowNondistributableArtifacts := nondistributable;
  newTLSConfig := tlsFor_invalid;
  url_Parse := parse;
  tlsconfig_ServerDefault := {| skipVerify := false; certsDir := "" |}
|}.

(** Two mirrors, the second on plain http; one insecure registry. *)
Definition service : defaultService serviceConfig :=
  {| config :=
       {| mirrors := ["mirror.local"; "http://cache.test:5000"];
          insecureRegistries := ["registry.insecure.test"; "cache.test:5000"];
          nondistributableHosts := ["registry.insecure.test"] |} |}.

(** The same with the first mirror written out in full. *)
Definition service_https : defaultService serviceConfig :=
  {| config :=
       {| mirrors := ["https://mirror.local"; "http://cache.test:5000"];
          insecureRegistries := ["registry.insecure.test"; "cache.test:5000"];
          nondistributableHosts := ["registry.insecure.test"] |} |}.

(** A mirror whose certificates do not load, then one that does not
    parse. *)
Definition service_two_failures : defaultService serviceConfig :=
  {| config :=
       {| mirrors := ["badcerts.test"; "http://["];
          insecureRegistries := [];
          nondistributableHosts := [] |} |}.

(** A good mirror, then one that does not parse. *)
Definition service_bad_mirror : defaultService serviceConfig :=
  {| config :=
       {| mirrors := ["mirror.local"; "http://["];
          insecureRegistries := [];
          nondistributableHosts := [] |} |}.

(** What the resolver returns for the insecure registry of [service]. *)
Definition insecure_tls : tlsConfig := {| skipVerify := true; certsDir := "" |}.

Definition insecure_https : APIEndpoint tlsConfig :=
  hostEndpoint "https" "registry.insecure.test" true insecure_tls.

Definition insecure_http : APIEndpoint tlsConfig :=
  hostEndpoint "http" "registry.insecure.test" true insecure_tls.

(** What it returns for the default namespace of [service]. *)
Definition mirror_local : APIEndpoint tlsConfig :=
  mirrorEndpoint (url_URL_of "https" "mirror.local")
    {| skipVerify := false; certsDir := "/etc/docker/certs.d/mirror.local" |}.

Definition cache_test : APIEndpoint tlsConfig :=
  mirrorEndpoint (url_URL_of "http" "cache.test:5000") insecure_tls.

Definition default_endpoints : list (APIEndpoint tlsConfig) :=
  [mirror_local; cache_test; officialEndpoint].

End Demo.

(** * The containerd worker: [NewWorkerOpt] and [newContainerd]

    [vendor/github.com/moby/buildkit/worker/containerd/containerd.go].
    The two functions validate the snapshotter name, lay out the worker's
    root directory, ask containerd for its identity and its runtime
    plugins, and assemble a [base.WorkerOpt].  The calls that reach the
    file system or containerd are the constructors of [call]; a function
    is a [prog], the tree of the calls it makes and of what it does with
    each answer. *)
Module containerd.

(** Go's [error] values, as [github.com/pkg/errors] builds them here; a
    format string is kept with its arguments.  [external_error] stands
    for an error made by a callee. *)
Inductive error : Type :=
| external_error (description : string)
| errors_New (message : string)
| errors_Errorf (format : string) (args : list string)
| errors_Wrap (cause : error) (message : string)
| errors_Wrapf (cause : error) (format : string) (args : list string).

(** A Go call returning [(v, err)] of which the caller reads [v] only
    when [err == nil]. *)
Inductive result (A : Type) : Type :=
| Ok (v : A)
| Err (err : error).
Arguments Ok {A} v.
Arguments Err {A} err.

(** [strings.Contains(s, substr)]: [substr] is a prefix of [s] or of what
    follows one of its bytes. *)
Fixpoint strings_Contains (s substr : string) : bool :=
  String.prefix substr s ||
  match s with
  | EmptyString => false
  | String _ s' => strings_Contains s' substr
  end.

(** [strconv.FormatBool] *)
Definition strconv_FormatBool (b : bool) : string :=
  if b then "true" else "false".

(** [ocispecs.Platform] (image-spec, specs-go/v1). *)
Record ocispecs_Platform : Type := {
  Architecture : string;
  OS : string;
  OSVersion : string;
  OSFeatures : list string;
  Variant : string
}.

(** The types of the values the file passes on and never looks into,
    the two it reads a field of ([serverInfo.UUID], [plugin.Platforms]
    and the three fields of a plugin's platform), and [time.Time] for
    the field of a lease. *)
Class Types : Type := {
  Client : Type;
  Opt : Type;
  DiffService : Type;
  LeasesManager : Type;
  ContentStore : Type;
  SnapshotService : Type;
  Snapshotter : Type;
  IdentityMapping : Type;
  MetadataStore : Type;
  NetworkProviders : Type;
  NetworkOpt : Type;
  Executor : Type;
  Applier : Type;
  Differ : Type;
  ImageStore : Type;
  DNSConfig : Type;
  Semaphore : Type;
  RuntimeInfo : Type;
  CDIManager : Type;
  ServerInfo : Type;
  Plugin : Type;
  PluginPlatform : Type;
  Stats : Type;
  DeleteOpt : Type;
  Time : Type;
  Time_zero : Time
}.

(** [leases.Lease] *)
Module Lease.
Record t {T : Types} : Type := mk {
  ID : string;
  CreatedAt : Time;
  Labels : gmap string string
}.
End Lease.

(** [WorkerOptions], lines 33-49; a pointer is an [option]. *)
Module WorkerOptions.
Record t {T : Types} : Type := mk {
  Root : string;
  Address : string;
  SnapshotterName : string;
  Namespace : string;
  CgroupParent : string;
  Rootless : bool;
  Labels : gmap string string;
  DNS : option DNSConfig;
  NetworkOpt : containerd.NetworkOpt;
  ApparmorProfile : string;
  Selinux : bool;
  ParallelismSem : option Semaphore;
  TraceSocket : string;
  Runtime : option RuntimeInfo;
  CDIManager : option containerd.CDIManager
}.
End WorkerOptions.

(** [containerdexecutor.ExecutorOptions], the fields of the literal at
    lines 156-168. *)
Module ExecutorOptions.
Record t {T : Types} : Type := mk {
  Client : containerd.Client;
  Root : string;
  CgroupParent : string;
  ApparmorProfile : string;
  DNSConfig : option containerd.DNSConfig;
  Selinux : bool;
  TraceSocket : string;
  Rootless : bool;
  Runtime : option RuntimeInfo;
  CDIManager : option containerd.CDIManager;
  NetworkProviders : containerd.NetworkProviders
}.
End ExecutorOptions.

(** The calls with an effect, each with the type of its answer. *)
Inductive call {T : Types} : Type -> Type :=
| ctd_New (address : string) (opts : list Opt) : call (result Client)
| os_MkdirAll (path : string) (perm : N) : call (option error)
| base_ID (root : string) : call (result string)
| Introspection_Server (client : Client) : call (result ServerInfo)
| netproviders_Providers (opt : NetworkOpt)
  : call (result (NetworkProviders * string))
| os_Hostname : call (result string)
| Introspection_Plugins (client : Client) (filters : list string)
  : call (result (list Plugin))
| cache_MigrateV2 (from to : string) (cs : ContentStore) (snap : Snapshotter)
    (lm : LeasesManager) : call (option error)
| metadata_NewStore (dbPath : string) : call (result MetadataStore)
| lm_Create (lm : LeasesManager) : call (result Lease.t)
| lm_Delete (lm : LeasesManager) (lease : Lease.t) (opts : list DeleteOpt)
  : call (option error).

(** A function body: it returns, or makes a call and goes on with the
    answer. *)
Inductive prog {T : Types} (A : Type) : Type :=
| Ret (a : A)
| Do {X : Type} (c : call X) (k : X -> prog A).
Arguments Ret {T A} a.
Arguments Do {T A X} c k.

Notation "'let!' x ':=' c 'in' k" := (Do c (fun x => k))
  (at level 10, x pattern, c at level 100, k at level 200,
   only parsing).

(** One call and its answer. *)
Inductive event {T : Types} : Type :=
| Event {X : Type} (c : call X) (answer : X).

(** [runs p trace a]: [p] returns [a] when its calls are answered as
    [trace] lists them, in that order. *)
Fixpoint runs {T : Types} {A : Type} (p : prog A) (trace : list event)
    (a : A) : Prop :=
  match p with
  | Ret a' => trace = [] /\ a = a'
  | Do c k =>
      exists answer trace',
        trace = Event c answer :: trace' /\ runs (k answer) trace' a
  end.

(** Running [p] against an environment [W] that answers the calls. *)
Fixpoint interp {T : Types} {A W : Type}
    (answer : forall X, call X -> W -> X * W) (p : prog A) (w : W)
  : A * W * list event :=
  match p with
  | Ret a => (a, w, [])
  | Do c k =>
      let (x, w') := answer _ c w in
      let '(a, w'', trace) := interp answer (k x) w' in
      (a, w'', Event c x :: trace)
  end.

(** [base.WorkerOpt], the fields of the literal at lines 170-188;
    [GarbageCollect] is a function body. *)
Module WorkerOpt.
Record t {T : Types} : Type := mk {
  ID : string;
  Root : string;
  Labels : gmap string string;
  MetadataStore : option containerd.MetadataStore;
  NetworkProviders : option containerd.NetworkProviders;
  Executor : option containerd.Executor;
  Snapshotter : option containerd.Snapshotter;
  ContentStore : option containerd.ContentStore;
  Applier : option containerd.Applier;
  Differ : option containerd.Differ;
  ImageStore : option containerd.ImageStore;
  Platforms : list ocispecs_Platform;
  LeaseManager : option LeasesManager;
  GarbageCollect : option (prog (option Stats * option error));
  ParallelismSem : option Semaphore;
  MountPoolRoot : string;
  CDIManager : option containerd.CDIManager
}.

(** [base.WorkerOpt{}] *)
Definition zero {T : Types} : t :=
  {| ID := ""; Root := ""; Labels := ∅; MetadataStore := None;
     NetworkProviders := None; Executor := None; Snapshotter := None;
     ContentStore := None; Applier := None; Differ := None;
     ImageStore := None; Platforms := []; LeaseManager := None;
     GarbageCollect := None; ParallelismSem := None; MountPoolRoot := "";
     CDIManager := None |}.
End WorkerOpt.

(** The functions and constants of other packages that have no effect of
    their own: the path join, the platform normaliser, the getters of
    the client, the constructors that return no error, the label keys of
    [worker/label] and [leases.SynchronousDelete]. *)
Class Deps {T : Types} : Type := {
  filepath_Join : list string -> string;
  platforms_Normalize : ocispecs_Platform -> ocispecs_Platform;
  ctd_WithDefaultNamespace : string -> Opt;
  client_DiffService : Client -> DiffService;
  client_LeasesService : Client -> LeasesManager;
  client_ContentStore : Client -> ContentStore;
  client_SnapshotService : Client -> string -> SnapshotService;
  client_ImageService : Client -> ImageStore;
  leaseutil_WithNamespace : LeasesManager -> string -> LeasesManager;
  containerdsnapshot_NewContentStore : ContentStore -> string -> ContentStore;
  containerdsnapshot_NewSnapshotter :
    string -> SnapshotService -> string -> option IdentityMapping ->
    Snapshotter;
  containerdexecutor_New : ExecutorOptions.t -> Executor;
  winlayers_NewFileSystemApplierWithWindows :
    ContentStore -> DiffService -> Applier;
  winlayers_NewWalkingDiffWithWindows : ContentStore -> DiffService -> Differ;
  leases_SynchronousDelete : DeleteOpt;
  ServerInfo_UUID : ServerInfo -> string;
  Plugin_Platforms : Plugin -> list PluginPlatform;
  PluginPlatform_OS : PluginPlatform -> string;
  PluginPlatform_Architecture : PluginPlatform -> string;
  PluginPlatform_Variant : PluginPlatform -> string;
  wlabel_Executor : string;
  wlabel_Snapshotter : string;
  wlabel_Hostname : string;
  wlabel_Network : string;
  wlabel_SELinuxEnabled : string;
  wlabel_ApparmorProfile : string;
  wlabel_ContainerdNamespace : string;
  wlabel_ContainerdUUID : string
}.

Section Worker.
Context {T : Types} {D : Deps}.

(** Lines 92-104: the labels of the worker.  The map literal, the three
    assignments, and [maps.Copy(xlabels, workerOpts.Labels)], which
    writes every entry of the second map into the first. *)
Definition xlabels (workerOpts : WorkerOptions.t) (hostname : string)
    (npResolvedMode : string) (serverInfo : ServerInfo)
  : gmap string string :=
  let xlabels : gmap string string :=
    <[wlabel_SELinuxEnabled :=
        strconv_FormatBool (WorkerOptions.Selinux workerOpts)]>
    (<[wlabel_Network := npResolvedMode]>
    (<[wlabel_Hostname := hostname]>
    (<[wlabel_Snapshotter := WorkerOptions.SnapshotterName workerOpts]>
    (<[wlabel_Executor := "containerd"]> ∅)))) in
  let xlabels :=
    if String.eqb (WorkerOptions.ApparmorProfile workerOpts) ""
    then xlabels
    else <[wlabel_ApparmorProfile :=
             WorkerOptions.ApparmorProfile workerOpts]> xlabels in
  let xlabels :=
    <[wlabel_ContainerdNamespace := WorkerOptions.Namespace workerOpts]>
      xlabels in
  let xlabels :=
    <[wlabel_ContainerdUUID := ServerInfo_UUID serverInfo]> xlabels in
  WorkerOptions.Labels workerOpts ∪ xlabels.

(** Lines 108-114: the garbage-collection function of the worker. *)
Definition gc (lm : LeasesManager) : prog (option Stats * option error) :=
  let! r := lm_Create lm in
  match r with
  | Err err => Ret (None, None)
  | Ok l =>
      let! err := lm_Delete lm
                    {| Lease.ID := Lease.ID l;
                       Lease.CreatedAt := Time_zero;
                       Lease.Labels := ∅ |}
                    [leases_SynchronousDelete] in
      Ret (None, err)
  end.

(** Lines 126-136: the platforms of the runtime plugins, appended plugin
    by plugin and platform by platform. *)
Definition platformSpecs (plugins : list Plugin) : list ocispecs_Platform :=
  foldl (fun platformSpecs plugin =>
           foldl (fun platformSpecs p =>
                    platformSpecs ++
                    [platforms_Normalize
                       {| OS := PluginPlatform_OS p;
                          Architecture := PluginPlatform_Architecture p;
                          Variant := PluginPlatform_Variant p;
                          OSVersion := "";
                          OSFeatures := [] |}])
                 platformSpecs (Plugin_Platforms plugin))
        [] plugins.

(** [newContainerd], lines 61-190. *)
Definition newContainerd (client : Client) (workerOpts : WorkerOptions.t)
  : prog (WorkerOpt.t * option error) :=
  if strings_Contains (WorkerOptions.SnapshotterName workerOpts) "/" then
    Ret (WorkerOpt.zero,
         Some (errors_Errorf "bad snapshotter name: %q"
                 [WorkerOptions.SnapshotterName workerOpts]))
  else
  let name := "containerd-" +:+ WorkerOptions.SnapshotterName workerOpts in
  let root := filepath_Join [WorkerOptions.Root workerOpts; name] in
  let! err := os_MkdirAll root 448 in
  match err with
  | Some err =>
      Ret (WorkerOpt.zero,
           Some (errors_Wrapf err "failed to create %s" [root]))
  | None =>
  let df := client_DiffService client in
  let! r := base_ID root in
  match r with
  | Err err => Ret (WorkerOpt.zero, Some err)
  | Ok id =>
  let! r := Introspection_Server client in
  match r with
  | Err err => Ret (WorkerOpt.zero, Some err)
  | Ok serverInfo =>
  let! r := netproviders_Providers (WorkerOptions.NetworkOpt workerOpts) in
  match r with
  | Err err => Ret (WorkerOpt.zero, Some err)
  | Ok (np, npResolvedMode) =>
  let! r := os_Hostname in
  let hostname := match r with Ok hostname => hostname
                          | Err _ => "unknown" end in
  let xlabels := xlabels workerOpts hostname npResolvedMode serverInfo in
  let lm := leaseutil_WithNamespace (client_LeasesService client)
              (WorkerOptions.Namespace workerOpts) in
  let gc := gc lm in
  let cs := containerdsnapshot_NewContentStore (client_ContentStore client)
              (WorkerOptions.Namespace workerOpts) in
  let! r := Introspection_Plugins client
              ["type==io.containerd.runtime.v1";
               "type==io.containerd.runtime.v2"] in
  match r with
  | Err err =>
      Ret (WorkerOpt.zero,
           Some (errors_Wrap err "failed to list runtime plugin"))
  | Ok plugins =>
  if Nat.eqb (length plugins) 0 then
    Ret (WorkerOpt.zero,
         Some (errors_New "failed to find any runtime plugins"))
  else
  let platformSpecs := platformSpecs plugins in
  let snap :=
    containerdsnapshot_NewSnapshotter
      (WorkerOptions.SnapshotterName workerOpts)
      (client_SnapshotService client
         (WorkerOptions.SnapshotterName workerOpts))
      (WorkerOptions.Namespace workerOpts) None in
  let! err := cache_MigrateV2 (filepath_Join [root; "metadata.db"])
                (filepath_Join [root; "metadata_v2.db"]) cs snap lm in
  match err with
  | Some err => Ret (WorkerOpt.zero, Some err)
  | None =>
  let! r := metadata_NewStore (filepath_Join [root; "metadata_v2.db"]) in
  match r with
  | Err err => Ret (WorkerOpt.zero, Some err)
  | Ok md =>
  let executorOpts :=
    {| ExecutorOptions.Client := client;
       ExecutorOptions.Root := root;
       ExecutorOptions.CgroupParent := WorkerOptions.CgroupParent workerOpts;
       ExecutorOptions.ApparmorProfile :=
         WorkerOptions.ApparmorProfile workerOpts;
       ExecutorOptions.DNSConfig := WorkerOptions.DNS workerOpts;
       ExecutorOptions.Selinux := WorkerOptions.Selinux workerOpts;
       ExecutorOptions.TraceSocket := WorkerOptions.TraceSocket workerOpts;
       ExecutorOptions.Rootless := WorkerOptions.Rootless workerOpts;
       ExecutorOptions.Runtime := WorkerOptions.Runtime workerOpts;
       ExecutorOptions.CDIManager := WorkerOptions.CDIManager workerOpts;
       ExecutorOptions.NetworkProviders := np |} in
  let opt :=
    {| WorkerOpt.ID := id;
       WorkerOpt.Root := root;
       WorkerOpt.Labels := xlabels;
       WorkerOpt.MetadataStore := Some md;
       WorkerOpt.NetworkProviders := Some np;
       WorkerOpt.Executor := Some (containerdexecutor_New executorOpts);
       WorkerOpt.Snapshotter := Some snap;
       WorkerOpt.ContentStore := Some cs;
       WorkerOpt.Applier :=
         Some (winlayers_NewFileSystemApplierWithWindows cs df);
       WorkerOpt.Differ := Some (winlayers_NewWalkingDiffWithWindows cs df);
       WorkerOpt.ImageStore := Some (client_ImageService client);
       WorkerOpt.Platforms := platformSpecs;
       WorkerOpt.LeaseManager := Some lm;
       WorkerOpt.GarbageCollect := Some gc;
       WorkerOpt.ParallelismSem := WorkerOptions.ParallelismSem workerOpts;
       WorkerOpt.MountPoolRoot := filepath_Join [root; "cachemounts"];
       WorkerOpt.CDIManager := WorkerOptions.CDIManager workerOpts |} in
  Ret (opt, None)
  end end end end end end end.

(** [NewWorkerOpt], lines 52-59. *)
Definition NewWorkerOpt (workerOpts : WorkerOptions.t) (opts : list Opt)
  : prog (WorkerOpt.t * option error) :=
  let opts :=
    opts ++ [ctd_WithDefaultNamespace (WorkerOptions.Namespace workerOpts)] in
  let! r := ctd_New (WorkerOptions.Address workerOpts) opts in
  match r with
  | Err err =>
      Ret (WorkerOpt.zero,
           Some (errors_Wrapf err
                   "failed to connect client to %q . make sure containerd is running"
                   [WorkerOptions.Address workerOpts]))
  | Ok client => newContainerd client workerOpts
  end.

End Worker.

(** ** Reading a trace *)

(** Which function a call is to. *)
Inductive kind : Type :=
| New | MkdirAll | ID | Server | Providers | Hostname | Plugins
| MigrateV2 | NewStore | Create | Delete.

Definition kind_of {T : Types} (ev : event) : kind :=
  match ev with
  | Event c _ =>
      match c with
      | ctd_New _ _ => New
      | os_MkdirAll _ _ => MkdirAll
      | base_ID _ => ID
      | Introspection_Server _ => Server
      | netproviders_Providers _ => Providers
      | os_Hostname => Hostname
      | Introspection_Plugins _ _ => Plugins
      | cache_MigrateV2 _ _ _ _ _ => MigrateV2
      | metadata_NewStore _ => NewStore
      | lm_Create _ => Create
      | lm_Delete _ _ _ => Delete
      end
  end.

(** What [os.Hostname] answered, for an event that is a call to it. *)
Definition Hostname_answer {T : Types} (ev : event)
  : option (result string) :=
  match ev with
  | Event c x =>
      match c in call X return X -> option (result string) with
      | os_Hostname => fun x => Some x
      | _ => fun _ => None
      end x
  end.

(** The plugins listed, for an event that is the listing. *)
Definition Plugins_answer {T : Types} (ev : event)
  : option (result (list Plugin)) :=
  match ev with
  | Event c x =>
      match c in call X return X -> option (result (list Plugin)) with
      | Introspection_Plugins _ _ => fun x => Some x
      | _ => fun _ => None
      end x
  end.

(** The path of the metadata store an event opens. *)
Definition NewStore_path {T : Types} (ev : event) : option string :=
  match ev with
  | Event c _ =>
      match c with
      | metadata_NewStore dbPath => Some dbPath
      | _ => None
      end
  end.

(** The answer of a call is an error. *)
Definition isErr {A : Type} (r : result A) : bool :=
  match r with Err _ => true | Ok _ => false end.

Definition failed {T : Types} (ev : event) : bool :=
  match ev with
  | Event c x =>
      match c in call X return X -> bool with
      | ctd_New _ _ => isErr
      | os_MkdirAll _ _ => fun err => if err is Some _ then true else false
      | base_ID _ => isErr
      | Introspection_Server _ => isErr
      | netproviders_Providers _ => isErr
      | os_Hostname => isErr
      | Introspection_Plugins _ _ => isErr
      | cache_MigrateV2 _ _ _ _ _ =>
          fun err => if err is Some _ then true else false
      | metadata_NewStore _ => isErr
      | lm_Create _ => isErr
      | lm_Delete _ _ _ => fun err => if err is Some _ then true else false
      end x
  end.

(** The order in which [newContainerd] makes its calls. *)
Definition newContainerd_calls : list kind :=
  [MkdirAll; ID; Server; Providers; Hostname; Plugins; MigrateV2; NewStore].

(** ** An implementation to run the worker on

    Every handle is a string that tells where it comes from; containerd
    answers every call but [os.Hostname], which fails, and lists three
    runtime plugins, the second without a platform. *)
Module Demo.

#[global] Instance types : Types := {|
  Client := string; Opt := string; DiffService := string;
  LeasesManager := string; ContentStore := string;
  SnapshotService := string; Snapshotter := string;
  IdentityMapping := unit; MetadataStore := string;
  NetworkProviders := string; NetworkOpt := string; Executor := string;
  Applier := string; Differ := string; ImageStore := string;
  DNSConfig := string; Semaphore := nat; RuntimeInfo := string;
  CDIManager := string; ServerInfo := string;
  Plugin := list (string * string * string);
  PluginPlatform := string * string * string;
  Stats := unit; DeleteOpt := string; Time := nat; Time_zero := 0
|}.

Definition normalize (p : ocispecs_Platform) : ocispecs_Platform :=
  {| Architecture :=
       if String.eqb (Architecture p) "x86_64" then "amd64"
       else Architecture p;
     OS := OS p; OSVersion := OSVersion p; OSFeatures := OSFeatures p;
     Variant := Variant p |}.

#[global] Instance deps : Deps := {|
  filepath_Join := String.concat "/";
  platforms_Normalize := normalize;
  ctd_WithDefaultNamespace := fun ns => "WithDefaultNamespace:" +:+ ns;
  client_DiffService := fun c => c +:+ ".DiffService";
  client_LeasesService := fun c => c +:+ ".LeasesService";
  client_ContentStore := fun c => c +:+ ".ContentStore";
  client_SnapshotService := fun c name => c +:+ ".SnapshotService:" +:+ name;
  client_ImageService := fun c => c +:+ ".ImageService";
  leaseutil_WithNamespace := fun lm ns => lm +:+ "@" +:+ ns;
  containerdsnapshot_NewContentStore := fun cs ns => cs +:+ "@" +:+ ns;
  containerdsnapshot_NewSnapshotter := fun name svc ns _ => svc +:+ "@" +:+ ns;
  containerdexecutor_New := fun eo => "executor:" +:+ ExecutorOptions.Root eo;
  winlayers_NewFileSystemApplierWithWindows :=
    fun cs df => "applier:" +:+ cs +:+ "," +:+ df;
  winlayers_NewWalkingDiffWithWindows :=
    fun cs df => "differ:" +:+ cs +:+ "," +:+ df;
  leases_SynchronousDelete := "SynchronousDelete";
  ServerInfo_UUID := fun si => si;
  Plugin_Platforms := fun plugin => plugin;
  PluginPlatform_OS := fun p => p.1.1;
  PluginPlatform_Architecture := fun p => p.1.2;
  PluginPlatform_Variant := fun p => p.2;
  wlabel_Executor := "org.mobyproject.buildkit.worker.executor";
  wlabel_Snapshotter := "org.mobyproject.buildkit.worker.snapshotter";
  wlabel_Hostname := "org.mobyproject.buildkit.worker.hostname";
  wlabel_Network := "org.mobyproject.buildkit.worker.network";
  wlabel_SELinuxEnabled := "org.mobyproject.buildkit.worker.selinux.enabled";
  wlabel_ApparmorProfile := "org.mobyproject.buildkit.worker.apparmor.profile";
  wlabel_ContainerdNamespace :=
    "org.mobyproject.buildkit.worker.containerd.namespace";
  wlabel_ContainerdUUID := "org.mobyproject.buildkit.worker.containerd.uuid"
|}.

Definition plugins : list Plugin :=
  [[("linux", "x86_64", "")]; []; [("linux", "arm64", "v8")]].

Definition lease : Lease.t :=
  {| Lease.ID := "lease-1"; Lease.CreatedAt := 42;
     Lease.Labels := {[ "containerd.io/gc.expire" := "soon" ]} |}.

(** The environment counts the calls it has answered. *)
Definition answer (X : Type) (c : call X) (w : nat) : X * nat :=
  match c in call X return X * nat with
  | ctd_New address _ => (Ok ("client:" +:+ address), S w)
  | os_MkdirAll _ _ => (None, S w)
  | base_ID _ => (Ok "worker-id", S w)
  | Introspection_Server _ => (Ok "uuid-1234", S w)
  | netproviders_Providers _ => (Ok ("providers", "host"), S w)
  | os_Hostname => (Err (external_error "hostname: not available"), S w)
  | Introspection_Plugins _ _ => (Ok plugins, S w)
  | cache_MigrateV2 _ _ _ _ _ => (None, S w)
  | metadata_NewStore dbPath => (Ok ("bolt:" +:+ dbPath), S w)
  | lm_Create _ => (Ok lease, S w)
  | lm_Delete _ _ _ => (None, S w)
  end.

(** The same with a containerd that lists no runtime plugin. *)
Definition answer_no_plugins (X : Type) (c : call X) (w : nat) : X * nat :=
  match c in call X return X * nat with
  | Introspection_Plugins _ _ => (Ok [], S w)
  | c => answer _ c w
  end.

Definition workerOpts : WorkerOptions.t :=
  {| WorkerOptions.Root := "/var/lib/buildkit";
     WorkerOptions.Address := "/run/containerd/containerd.sock";
     WorkerOptions.SnapshotterName := "overlayfs";
     WorkerOptions.Namespace := "buildkit";
     WorkerOptions.CgroupParent := "";
     WorkerOptions.Rootless := false;
     WorkerOptions.Labels :=
       {[ "team" := "infra";
          "org.mobyproject.buildkit.worker.executor" := "custom" ]};
     WorkerOptions.DNS := None;
     WorkerOptions.NetworkOpt := "auto";
     WorkerOptions.ApparmorProfile := "";
     WorkerOptions.Selinux := true;
     WorkerOptions.ParallelismSem := None;
     WorkerOptions.TraceSocket := "";
     WorkerOptions.Runtime := None;
     WorkerOptions.CDIManager := None |}.

(** The same with a snapshotter name that leaves the root. *)
Definition workerOpts_slash : WorkerOptions.t :=
  {| WorkerOptions.Root := "/var/lib/buildkit";
     WorkerOptions.Address := "/run/containerd/containerd.sock";
     WorkerOptions.SnapshotterName := "../overlayfs";
     WorkerOptions.Namespace := "buildkit";
     WorkerOptions.CgroupParent := "";
     WorkerOptions.Rootless := false;
     WorkerOptions.Labels := ∅;
     WorkerOptions.DNS := None;
     WorkerOptions.NetworkOpt := "auto";
     WorkerOptions.ApparmorProfile := "";
     WorkerOptions.Selinux := true;
     WorkerOptions.ParallelismSem := None;
     WorkerOptions.TraceSocket := "";
     WorkerOptions.Runtime := None;
     WorkerOptions.CDIManager := None |}.

(** The runs of the two functions in this environment. *)
Definition run_newContainerd :=
  interp answer (newContainerd "client" workerOpts) 0.

Definition run_NewWorkerOpt_slash :=
  interp answer (NewWorkerOpt workerOpts_slash []) 0.

Definition run_NewWorkerOpt :=
  interp answer (NewWorkerOpt workerOpts ["WithTimeout"]) 0.

Definition run_no_plugins :=
  interp answer_no_plugins (newContainerd "client" workerOpts) 0.

Definition opt : WorkerOpt.t := run_newContainerd.1.1.1.

Definition trace : list event := run_newContainerd.2.

Definition trace_no_plugins : list event := run_no_plugins.2.

(** The run of the garbage collection of [opt]. *)
Definition run_gc :=
  interp answer (gc "client.LeasesService@buildkit") 0.

End Demo.

End containerd.

(** * Properties *)

(** ** The address handed to the parser *)

Lemma prefix_empty (s : string) : String.prefix "" s = true.
Proof. by destruct s. Qed.

Lemma prefix_append (p s : string) :
  String.prefix p s = true <-> exists rest, s = p +:+ rest.
Proof.
  revert s. induction p as [|a p IH]; intros s.
  - rewrite prefix_empty. split; [|done]. intros _. by exists s.
  - destruct s as [|b s]; simpl.
    + split; [discriminate|]. intros [rest Hr]. discriminate Hr.
    + destruct (ascii_dec a b) as [->|Hne].
      * rewrite IH. split; intros [rest Hr]; exists rest.
        -- by rewrite Hr.
        -- by injection Hr.
      * split; [discriminate|]. intros [rest Hr]. by injection Hr.
Qed.

Lemma length_append (s1 s2 : string) :
  String.length (s1 +:+ s2) = String.length s1 + String.length s2.
Proof.
  induction s1 as [|a s1 IH]; [done|].
  change (String a s1 +:+ s2) with (String a (s1 +:+ s2)).
  simpl. by rewrite IH.
Qed.

Lemma https_append_neq (mirror : string) : "https://" +:+ mirror <> mirror.
Proof.
  intros Heq. apply (f_equal String.length) in Heq.
  rewrite length_append in Heq. simpl in Heq. lia.
Qed.

Lemma mirrorAddress_prefixed (mirror : string) :
  strings_HasPrefix mirror "http://" = false ->
  strings_HasPrefix mirror "https://" = false ->
  mirrorAddress mirror = "https://" +:+ mirror.
Proof. unfold mirrorAddress. by intros -> ->. Qed.

Lemma mirrorAddress_kept (mirror : string) :
  strings_HasPrefix mirror "http://" = true \/
  strings_HasPrefix mirror "https://" = true ->
  mirrorAddress mirror = mirror.
Proof.
  unfold mirrorAddress. intros [-> | ->]; [done|].
  by rewrite andb_false_r.
Qed.

(** An address that has been prefixed is left alone. *)
Lemma mirrorAddress_https (mirror : string) :
  mirrorAddress ("https://" +:+ mirror) = "https://" +:+ mirror.
Proof.
  apply mirrorAddress_kept. right. unfold strings_HasPrefix.
  apply prefix_append. by exists mirror.
Qed.

(** Both prefixes the code looks for are explicit schemes in the sense of
    the spec. *)
Lemma HasPrefix_carriesExplicitScheme (mirror : string) :
  strings_HasPrefix mirror "http://" = true \/
  strings_HasPrefix mirror "https://" = true ->
  carriesExplicitScheme mirror = true.
Proof.
  unfold strings_HasPrefix.
  intros [[rest ->]%prefix_append|[rest ->]%prefix_append];
    lazy; by destruct rest.
Qed.

(** ** The loop *)

Section Loop.
Context {serviceConfig tls_Config : Type} {E : Externals serviceConfig tls_Config}.
Implicit Types (s : defaultService serviceConfig) (hostname mirror : string).
Implicit Types (endpoints built : list (APIEndpoint tls_Config)).

Lemma resolveMirror_Ok s mirror endpoint :
  resolveMirror s mirror = Ok endpoint <->
  exists mirrorURL mirrorTLSConfig,
    url_Parse (mirrorAddress mirror) = Ok mirrorURL /\
    newTLSConfig (Host mirrorURL) (isSecureIndex (config s) (Host mirrorURL))
      = Ok mirrorTLSConfig /\
    endpoint = mirrorEndpoint mirrorURL mirrorTLSConfig.
Proof.
  unfold resolveMirror. split.
  - destruct (url_Parse _) as [u|e] eqn:Hu; [|discriminate].
    destruct (newTLSConfig _ _) as [c|e] eqn:Hc; [|discriminate].
    intros [= <-]. by exists u, c.
  - intros (u & c & -> & -> & ->). reflexivity.
Qed.

Lemma mirrorResolves_iff s mirror :
  mirrorResolves s mirror <-> exists endpoint, resolveMirror s mirror = Ok endpoint.
Proof.
  split.
  - intros (u & c & Hu & Hc). exists (mirrorEndpoint u c).
    apply resolveMirror_Ok. by exists u, c.
  - intros (ep & (u & c & Hu & Hc & _)%resolveMirror_Ok). by exists u, c.
Qed.

Lemma rangeMirrors_cons s mirror rest endpoints :
  rangeMirrors s (mirror :: rest) endpoints =
  match resolveMirror s mirror with
  | Err err => Return ([], Some err)
  | Ok endpoint => rangeMirrors s rest (endpoints ++ [endpoint])
  end.
Proof.
  simpl. unfold resolveMirror.
  destruct (url_Parse _) as [u|e]; [|reflexivity].
  destruct (newTLSConfig _ _); reflexivity.
Qed.

(** The loop runs to its end exactly when every mirror resolves, and then
    it has appended their descriptors in order. *)
Lemma rangeMirrors_Continue s mirrors endpoints endpoints' :
  rangeMirrors s mirrors endpoints = Continue endpoints' <->
  exists built,
    Forall2 (fun mirror endpoint => resolveMirror s mirror = Ok endpoint)
      mirrors built /\
    endpoints' = endpoints ++ built.
Proof.
  revert endpoints. induction mirrors as [|m rest IH]; intros endpoints.
  - simpl. split.
    + intros [= <-]. exists []. split; [constructor | by rewrite app_nil_r].
    + intros (built & ->%Forall2_nil_inv_l & ->). by rewrite app_nil_r.
  - rewrite rangeMirrors_cons. split.
    + destruct (resolveMirror s m) as [ep|e] eqn:Hm; [|discriminate].
      intros (built & Hb & ->)%IH. exists (ep :: built). split.
      * by constructor.
      * by rewrite <- app_assoc.
    + intros (built & Hb & ->).
      apply Forall2_cons_inv_l in Hb as (ep & built' & Hm & Hb & ->).
      rewrite Hm. apply IH. exists built'. split; [done|].
      by rewrite <- app_assoc.
Qed.

(** The loop leaves the function exactly at the first mirror that does
    not resolve, with that mirror's error and no endpoints. *)
Lemma rangeMirrors_Return s mirrors endpoints r :
  rangeMirrors s mirrors endpoints = Return r <->
  exists before mirror after err,
    mirrors = before ++ mirror :: after /\
    Forall (mirrorResolves s) before /\
    resolveMirror s mirror = Err err /\
    r = ([], Some err).
Proof.
  revert endpoints. induction mirrors as [|m rest IH]; intros endpoints.
  - simpl. split; [discriminate|].
    intros (before & mirror & after & err & Hm & _).
    by destruct before.
  - rewrite rangeMirrors_cons. split.
    + destruct (resolveMirror s m) as [ep|e] eqn:Hm.
      * intros (before & mirror & after & err & -> & Hb & Hf & ->)%IH.
        exists (m :: before), mirror, after, err. repeat split; try done.
        constructor; [|done]. apply mirrorResolves_iff. by exists ep.
      * intros [= <-]. exists [], m, rest, e. repeat split; try done.
    + intros (before & mirror & after & err & Hm & Hb & Hf & ->).
      destruct before as [|m' before]; simpl in Hm.
      * injection Hm as -> ->. by rewrite Hf.
      * injection Hm as -> ->.
        apply Forall_cons in Hb as [(ep & ->)%mirrorResolves_iff Hb].
        apply IH. by exists before, mirror, after, err.
Qed.

Lemma lookupV2Endpoints_default s hostname :
  hostname = DefaultNamespace \/ hostname = IndexHostname ->
  lookupV2Endpoints s hostname =
  match rangeMirrors s (Mirrors (config s)) [] with
  | Return r => r
  | Continue endpoints => (endpoints ++ [officialEndpoint], None)
  end.
Proof.
  intros H. unfold lookupV2Endpoints.
  destruct H as [->| ->]; rewrite String.eqb_refl; [done|].
  by rewrite orb_true_r.
Qed.

Lemma lookupV2Endpoints_custom s hostname :
  hostname <> DefaultNamespace -> hostname <> IndexHostname ->
  lookupV2Endpoints s hostname =
  match newTLSConfig hostname (isSecureIndex (config s) hostname) with
  | Err err => ([], Some err)
  | Ok tlsConfig =>
      let ana := allowNondistributableArtifacts (config s) hostname in
      (hostEndpoint "https" hostname ana tlsConfig ::
         (if InsecureSkipVerify tlsConfig
          then [hostEndpoint "http" hostname ana tlsConfig] else []),
       None)
  end.
Proof.
  intros H1%String.eqb_neq H2%String.eqb_neq. unfold lookupV2Endpoints.
  rewrite H1, H2. simpl.
  destruct (newTLSConfig _ _) as [c|e]; [|done].
  by destruct (InsecureSkipVerify c).
Qed.

(** A successful resolution of the default namespace: one descriptor a
    mirror, in order, then the official registry. *)
Lemma lookupV2Endpoints_default_Ok s hostname endpoints :
  hostname = DefaultNamespace \/ hostname = IndexHostname ->
  lookupV2Endpoints s hostname = (endpoints, None) ->
  exists built,
    Forall2 (fun mirror endpoint => resolveMirror s mirror = Ok endpoint)
      (Mirrors (config s)) built /\
    endpoints = built ++ [officialEndpoint].
Proof.
  intros Hh. rewrite (lookupV2Endpoints_default _ _ Hh).
  destruct (rangeMirrors _ _ _) as [r|eps] eqn:Hr.
  - apply rangeMirrors_Return in Hr as (?&?&?&?&_&_&_&->). discriminate.
  - apply rangeMirrors_Continue in Hr as (built & Hb & ->).
    intros [= <-]. by exists built.
Qed.

(** A failed resolution of the default namespace stops at the first
    mirror that does not resolve. *)
Lemma lookupV2Endpoints_default_Err s hostname endpoints err :
  hostname = DefaultNamespace \/ hostname = IndexHostname ->
  lookupV2Endpoints s hostname = (endpoints, Some err) <->
  endpoints = [] /\
  exists before mirror after,
    Mirrors (config s) = before ++ mirror :: after /\
    Forall (mirrorResolves s) before /\
    resolveMirror s mirror = Err err.
Proof.
  intros Hh. rewrite (lookupV2Endpoints_default _ _ Hh).
  destruct (rangeMirrors _ _ _) as [r|eps] eqn:Hr.
  - apply rangeMirrors_Return in Hr as (b & m & a & e & Hm & Hb & Hf & ->).
    split.
    + intros [= <- <-]. split; [done|]. by exists b, m, a.
    + intros (-> & b' & m' & a' & Hm' & Hb' & Hf').
      assert (rangeMirrors s (Mirrors (config s)) [] = Return ([], Some err))
        as Hr' by (apply rangeMirrors_Return; by exists b', m', a', err).
      assert (rangeMirrors s (Mirrors (config s)) [] = Return ([], Some e))
        as Hr'' by (apply rangeMirrors_Return; by exists b, m, a, e).
      congruence.
  - split; [discriminate|].
    intros (-> & b' & m' & a' & Hm' & Hb' & Hf').
    assert (rangeMirrors s (Mirrors (config s)) [] = Return ([], Some err))
      as Hr' by (apply rangeMirrors_Return; by exists b', m', a', err).
    congruence.
Qed.

(** Either branch returns a list with no error, or an error with no
    list. *)
Lemma lookupV2Endpoints_shape s hostname endpoints err :
  lookupV2Endpoints s hostname = (endpoints, err) ->
  (err = None /\ endpoints <> []) \/ (exists e, err = Some e /\ endpoints = []).
Proof.
  unfold lookupV2Endpoints.
  destruct (_ || _).
  - destruct (rangeMirrors _ _ _) as [r|eps] eqn:Hr.
    + apply rangeMirrors_Return in Hr as (?&?&?& e &_&_&_&->).
      intros [= <- <-]. right. by exists e.
    + intros [= <- <-]. left. split; [done|]. by destruct eps.
  - destruct (newTLSConfig _ _) as [c|e].
    + simpl. intros [= <- <-]. left. split; [done|].
      by destruct (InsecureSkipVerify c).
    + intros [= <- <-]. right. by exists e.
Qed.

(** The three kinds of descriptor the function builds. *)
Lemma lookupV2Endpoints_kinds s hostname endpoints err endpoint :
  lookupV2Endpoints s hostname = (endpoints, err) ->
  endpoint ∈ endpoints ->
  (exists mirrorURL mirrorTLSConfig,
      endpoint = mirrorEndpoint mirrorURL mirrorTLSConfig) \/
  endpoint = officialEndpoint \/
  (exists scheme tlsConfig,
      endpoint = hostEndpoint scheme hostname
                   (allowNondistributableArtifacts (config s) hostname)
                   tlsConfig).
Proof.
  unfold lookupV2Endpoints.
  destruct (_ || _).
  - destruct (rangeMirrors _ _ _) as [r|eps] eqn:Hr.
    + apply rangeMirrors_Return in Hr as (?&?&?& e &_&_&_&->).
      intros [= <- <-]. by intros ?%elem_of_nil.
    + apply rangeMirrors_Continue in Hr as (built & Hb & ->).
      intros [= <- <-]. simpl.
      intros [Hin| ->%list_elem_of_singleton]%elem_of_app; [|by right; left].
      left. apply list_elem_of_lookup in Hin as [i Hi].
      destruct (Forall2_lookup_r _ _ _ _ _ Hb Hi)
        as (m & _ & (u & c & _ & _ & ->)%resolveMirror_Ok).
      by exists u, c.
  - destruct (newTLSConfig _ _) as [c|e].
    + simpl. intros [= <- <-] Hin. right; right.
      destruct (InsecureSkipVerify c); simpl in Hin;
        repeat (apply elem_of_cons in Hin as [->|Hin]);
        try (by eexists _, _); by apply elem_of_nil in Hin.
    + intros [= <- <-]. by intros ?%elem_of_nil.
Qed.

Lemma Forall2_resolveMirror_filter s mirrors built :
  Forall2 (fun mirror endpoint => resolveMirror s mirror = Ok endpoint)
    mirrors built ->
  List.filter Mirror (built ++ [officialEndpoint]) = built.
Proof.
  induction 1 as [|m ep ms eps (u & c & _ & _ & ->)%resolveMirror_Ok _ IH].
  - reflexivity.
  - simpl. by rewrite IH.
Qed.

(** Where the descriptors of a successful default-namespace resolution
    sit: the mirrors at the indices below their number, the official
    registry at that number, nothing after. *)
Lemma default_lookup_inv s mirrors built i endpoint :
  Forall2 (fun mirror endpoint => resolveMirror s mirror = Ok endpoint)
    mirrors built ->
  (built ++ [officialEndpoint]) !! i = Some endpoint ->
  (i < length mirrors /\ exists mirror,
      mirrors !! i = Some mirror /\ resolveMirror s mirror = Ok endpoint) \/
  (i = length mirrors /\ endpoint = officialEndpoint).
Proof.
  intros Hb Hi. pose proof (Forall2_length _ _ _ Hb) as Hlen.
  apply lookup_app_Some in Hi as [Hi|[Hge Hi]].
  - left. split; [rewrite Hlen; by eapply lookup_lt_Some|].
    destruct (Forall2_lookup_r _ _ _ _ _ Hb Hi) as (m & Hm & Hr). by exists m.
  - right. apply list_lookup_singleton_Some in Hi as [Hi ->].
    split; [lia|done].
Qed.

End Loop.

(** ** The result depends on the collaborators through their results *)

Section Extensionality.
Context {serviceConfig tls_Config : Type}.
Context (E1 E2 : Externals serviceConfig tls_Config).
Context (s1 s2 : defaultService serviceConfig).

Hypothesis same_parse :
  forall rawURL, @url_Parse _ _ E1 rawURL = @url_Parse _ _ E2 rawURL.
Hypothesis same_tls :
  forall host secure,
    @newTLSConfig _ _ E1 host secure = @newTLSConfig _ _ E2 host secure.
Hypothesis same_secure :
  forall host,
    @isSecureIndex _ _ E1 (config s1) host
    = @isSecureIndex _ _ E2 (config s2) host.

Lemma rangeMirrors_ext mirrors1 mirrors2 endpoints :
  map mirrorAddress mirrors1 = map mirrorAddress mirrors2 ->
  @rangeMirrors _ _ E1 s1 mirrors1 endpoints
  = @rangeMirrors _ _ E2 s2 mirrors2 endpoints.
Proof.
  revert mirrors2 endpoints.
  induction mirrors1 as [|m1 ms1 IH]; intros [|m2 ms2] endpoints;
    try discriminate; [done|].
  simpl. intros [= Hm Hms]. rewrite Hm, same_parse.
  destruct (url_Parse _) as [u|e]; [|done].
  rewrite same_secure, same_tls.
  destruct (newTLSConfig _ _) as [c|e]; [|done].
  by apply IH.
Qed.

Hypothesis same_namespace :
  @DefaultNamespace _ _ E1 = @DefaultNamespace _ _ E2.
Hypothesis same_index : @IndexHostname _ _ E1 = @IndexHostname _ _ E2.
Hypothesis same_registry :
  @DefaultV2Registry _ _ E1 = @DefaultV2Registry _ _ E2.
Hypothesis same_default :
  @tlsconfig_ServerDefault _ _ E1 = @tlsconfig_ServerDefault _ _ E2.
Hypothesis same_skip :
  forall tlsConfig,
    @InsecureSkipVerify _ _ E1 tlsConfig = @InsecureSkipVerify _ _ E2 tlsConfig.
Hypothesis same_ana :
  forall host,
    @allowNondistributableArtifacts _ _ E1 (config s1) host
    = @allowNondistributableArtifacts _ _ E2 (config s2) host.

Lemma lookupV2Endpoints_ext hostname :
  map mirrorAddress (@Mirrors _ _ E1 (config s1))
  = map mirrorAddress (@Mirrors _ _ E2 (config s2)) ->
  @lookupV2Endpoints _ _ E1 s1 hostname = @lookupV2Endpoints _ _ E2 s2 hostname.
Proof.
  intros Hm. unfold lookupV2Endpoints.
  rewrite same_namespace, same_index. destruct (_ || _).
  - rewrite (rangeMirrors_ext _ _ _ Hm). unfold officialEndpoint.
    by rewrite same_registry, same_default.
  - rewrite same_secure, same_tls.
    destruct (newTLSConfig _ _) as [c|e]; [|done].
    by rewrite same_ana, same_skip.
Qed.

End Extensionality.

(** ** The demo externals keep the contracts *)

Lemma Demo_tlsFor_skips_unless_secure :
  newTLSConfig_skips_unless_secure Demo.externals.
Proof.
  intros host secure c. simpl. unfold Demo.tlsFor.
  destruct (secure && _); [discriminate|]. by intros [= <-].
Qed.

Lemma Demo_parse_keeps_http : url_Parse_keeps_http Demo.externals.
Proof.
  intros rawURL u. unfold strings_HasPrefix. simpl. unfold Demo.parse.
  intros ->. unfold Demo.parseAuthority.
  destruct (Demo.cut _ _) as [host path].
  destruct (_ && _); [discriminate|]. by intros [= <-].
Qed.

Lemma Demo_externals'_parse (rawURL : string) :
  @url_Parse _ _ Demo.externals rawURL = @url_Parse _ _ Demo.externals' rawURL.
Proof. simpl. by destruct (Demo.parse rawURL). Qed.

Lemma Demo_externals'_tls (host : string) (secure : bool) :
  @newTLSConfig _ _ Demo.externals host secure
  = @newTLSConfig _ _ Demo.externals' host secure.
Proof. simpl. by destruct secure. Qed.

Lemma Demo_externals'_secure (cfg : Demo.serviceConfig) (host : string) :
  @isSecureIndex _ _ Demo.externals cfg host
  = @isSecureIndex _ _ Demo.externals' cfg host.
Proof.
  simpl. unfold Demo.secureIndex, Demo.listed.
  induction (Demo.insecureRegistries cfg) as [|h hs IH]; [done|].
  simpl. rewrite <- IH. by destruct (String.eqb host h).
Qed.

Lemma Demo_externals'_skip (tlsConfig : Demo.tlsConfig) :
  @InsecureSkipVerify _ _ Demo.externals tlsConfig
  = @InsecureSkipVerify _ _ Demo.externals' tlsConfig.
Proof. simpl. by rewrite negb_involutive. Qed.

(** ** The custom-hostname branch *)

(** C1.  For a hostname that is neither sentinel, a successful resolution
    starts with the https descriptor; a second descriptor, of scheme http,
    is there exactly when the TLS configuration built for the host has
    [InsecureSkipVerify] set, and it carries the same
    [AllowNondistributableArtifacts] and the same [TLSConfig] as the first.
    With the TLS builder of the spec, whose flag is the negation of the
    classification, a secure host gets one descriptor and an insecure host
    two. *)
Theorem lookupV2Endpoints_custom_host_endpoints
    {serviceConfig tls_Config} {E : Externals serviceConfig tls_Config}
    (s : defaultService serviceConfig) (hostname : string)
    (endpoints : list (APIEndpoint tls_Config)) :
  hostname <> DefaultNamespace -> hostname <> IndexHostname ->
  lookupV2Endpoints s hostname = (endpoints, None) ->
  exists tlsConfig,
    newTLSConfig hostname (isSecureIndex (config s) hostname) = Ok tlsConfig /\
    let ana := allowNondistributableArtifacts (config s) hostname in
    let https := hostEndpoint "https" hostname ana tlsConfig in
    let http := hostEndpoint "http" hostname ana tlsConfig in
    endpoints !! 0 = Some https /\
    Scheme (URL https) = "https" /\
    (InsecureSkipVerify tlsConfig = true -> endpoints = [https; http]) /\
    (InsecureSkipVerify tlsConfig = false -> endpoints = [https]) /\
    (forall second, endpoints !! 1 = Some second ->
       InsecureSkipVerify tlsConfig = true /\
       Scheme (URL second) = "http" /\
       AllowNondistributableArtifacts second
         = AllowNondistributableArtifacts https /\
       TLSConfig second = TLSConfig https) /\
    (newTLSConfig_skips_unless_secure E ->
       (isSecureIndex (config s) hostname = true -> length endpoints = 1) /\
       (isSecureIndex (config s) hostname = false -> length endpoints = 2)).
Proof.
  intros H1 H2. rewrite (lookupV2Endpoints_custom _ _ H1 H2).
  destruct (newTLSConfig _ _) as [c|e] eqn:Hc; [|discriminate].
  simpl. intros [= <-]. exists c. split; [done|].
  assert (forall secure, newTLSConfig_skips_unless_secure E ->
            isSecureIndex (config s) hostname = secure ->
            InsecureSkipVerify c = negb secure) as Hflag.
  { intros secure Hspec Hsec. apply (Hspec hostname). by rewrite <- Hsec. }
  destruct (InsecureSkipVerify c) eqn:Hskip; simpl.
  - split; [done|]. split; [done|]. split; [done|]. split; [done|].
    split; [by intros second [= <-]|].
    intros Hspec. split; intros Hsec; [|done].
    by specialize (Hflag _ Hspec Hsec).
  - split; [done|]. split; [done|]. split; [done|]. split; [done|].
    split; [by intros second [=]|].
    intros Hspec. split; intros Hsec; [done|].
    by specialize (Hflag _ Hspec Hsec).
Qed.

Lemma lookupV2Endpoints_custom_host_endpoints_witness :
  "registry.insecure.test" <> DefaultNamespace /\
  "registry.insecure.test" <> IndexHostname /\
  lookupV2Endpoints Demo.service "registry.insecure.test"
    = ([Demo.insecure_https; Demo.insecure_http], None) /\
  newTLSConfig_skips_unless_secure Demo.externals /\
  length [Demo.insecure_https; Demo.insecure_http] = 2.
Proof.
  assert ("registry.insecure.test" <> DefaultNamespace) as H1 by discriminate.
  assert ("registry.insecure.test" <> IndexHostname) as H2 by discriminate.
  assert (lookupV2Endpoints Demo.service "registry.insecure.test"
          = ([Demo.insecure_https; Demo.insecure_http], None)) as H3
    by reflexivity.
  split; [exact H1|]. split; [exact H2|]. split; [exact H3|].
  split; [exact Demo_tlsFor_skips_unless_secure|].
  destruct (lookupV2Endpoints_custom_host_endpoints _ _ _ H1 H2 H3)
    as (c & _ & _ & _ & _ & _ & _ & Hlen).
  apply (Hlen Demo_tlsFor_skips_unless_secure). reflexivity.
Defined.

(** ** The default-namespace branch *)

(** C2.  For a sentinel hostname, a successful resolution has one
    descriptor a configured mirror and one more; the last is the official
    registry.  No mirror gets a plaintext fallback: the descriptors marked
    [Mirror] are as many as the mirrors, the one at a mirror's index holds
    the URL parsed from that mirror's address, and no descriptor of the
    kind the custom-hostname branch appends for an insecure host is in the
    list, whatever the TLS configurations of the mirrors say. *)
Theorem lookupV2Endpoints_default_namespace_length
    {serviceConfig tls_Config} {E : Externals serviceConfig tls_Config}
    (s : defaultService serviceConfig) (hostname : string)
    (endpoints : list (APIEndpoint tls_Config)) :
  hostname = DefaultNamespace \/ hostname = IndexHostname ->
  lookupV2Endpoints s hostname = (endpoints, None) ->
  length endpoints = length (Mirrors (config s)) + 1 /\
  (exists official, last endpoints = Some official /\ Official official = true) /\
  length (List.filter Mirror endpoints) = length (Mirrors (config s)) /\
  (forall i mirror, Mirrors (config s) !! i = Some mirror ->
     exists mirrorURL endpoint,
       url_Parse (mirrorAddress mirror) = Ok mirrorURL /\
       endpoints !! i = Some endpoint /\
       Mirror endpoint = true /\ URL endpoint = mirrorURL) /\
  (forall host ana tlsConfig,
     hostEndpoint "http" host ana tlsConfig ∉ endpoints).
Proof.
  intros Hh Hl.
  destruct (lookupV2Endpoints_default_Ok _ _ _ Hh Hl) as (built & Hb & ->).
  pose proof (Forall2_length _ _ _ Hb) as Hlen.
  split; [rewrite length_app; simpl; lia|].
  split; [exists officialEndpoint; by rewrite last_snoc|].
  split; [by rewrite (Forall2_resolveMirror_filter _ _ _ Hb)|].
  split.
  - intros i mirror Hi.
    destruct (Forall2_lookup_l _ _ _ _ _ Hb Hi)
      as (ep & Hep & (u & c & Hu & _ & ->)%resolveMirror_Ok).
    exists u, (mirrorEndpoint u c). split; [done|].
    split; [by apply lookup_app_l_Some|done].
  - intros host ana c [i Hi]%list_elem_of_lookup.
    destruct (default_lookup_inv _ _ _ _ _ Hb Hi)
      as [(_ & m & _ & (u & c' & _ & _ & Heq)%resolveMirror_Ok)|[_ Heq]];
      discriminate Heq.
Qed.

Lemma lookupV2Endpoints_default_namespace_length_witness :
  ("docker.io" = DefaultNamespace \/ "docker.io" = IndexHostname) /\
  lookupV2Endpoints Demo.service "docker.io" = (Demo.default_endpoints, None) /\
  length Demo.default_endpoints = length (Mirrors (config Demo.service)) + 1 /\
  Demo.insecure_http ∉ Demo.default_endpoints.
Proof.
  assert ("docker.io" = DefaultNamespace \/ "docker.io" = IndexHostname)
    as Hh by (left; reflexivity).
  assert (lookupV2Endpoints Demo.service "docker.io"
          = (Demo.default_endpoints, None)) as Hl by reflexivity.
  split; [exact Hh|]. split; [exact Hl|].
  destruct (lookupV2Endpoints_default_namespace_length _ _ _ Hh Hl)
    as (Hlen & _ & _ & _ & Hno).
  split; [exact Hlen|]. apply Hno.
Defined.

(** C4.  For a sentinel hostname, a successful resolution holds at index
    [i] the descriptor built from the [i]-th configured mirror, from its
    parsed address and the TLS configuration of its host; the official
    registry comes at the index after the last mirror, and it is the only
    descriptor marked [Official], after all those marked [Mirror]. *)
Theorem lookupV2Endpoints_mirror_order
    {serviceConfig tls_Config} {E : Externals serviceConfig tls_Config}
    (s : defaultService serviceConfig) (hostname : string)
    (endpoints : list (APIEndpoint tls_Config)) :
  hostname = DefaultNamespace \/ hostname = IndexHostname ->
  lookupV2Endpoints s hostname = (endpoints, None) ->
  (forall i mirror, Mirrors (config s) !! i = Some mirror ->
     exists mirrorURL mirrorTLSConfig,
       url_Parse (mirrorAddress mirror) = Ok mirrorURL /\
       newTLSConfig (Host mirrorURL)
         (isSecureIndex (config s) (Host mirrorURL)) = Ok mirrorTLSConfig /\
       endpoints !! i = Some (mirrorEndpoint mirrorURL mirrorTLSConfig)) /\
  endpoints !! length (Mirrors (config s)) = Some officialEndpoint /\
  (forall i endpoint, endpoints !! i = Some endpoint ->
     (Mirror endpoint = true <-> i < length (Mirrors (config s))) /\
     (Official endpoint = true <-> i = length (Mirrors (config s)))).
Proof.
  intros Hh Hl.
  destruct (lookupV2Endpoints_default_Ok _ _ _ Hh Hl) as (built & Hb & ->).
  pose proof (Forall2_length _ _ _ Hb) as Hlen.
  split; [|split].
  - intros i mirror Hi.
    destruct (Forall2_lookup_l _ _ _ _ _ Hb Hi)
      as (ep & Hep & (u & c & Hu & Hc & ->)%resolveMirror_Ok).
    exists u, c. split; [done|]. split; [done|]. by apply lookup_app_l_Some.
  - rewrite Hlen. by rewrite list_lookup_middle.
  - intros i ep Hi.
    destruct (default_lookup_inv _ _ _ _ _ Hb Hi)
      as [(Hlt & m & _ & (u & c & _ & _ & ->)%resolveMirror_Ok)|[-> ->]];
      simpl.
    + split; split; try done. lia.
    + split; split; try done. lia.
Qed.

Lemma lookupV2Endpoints_mirror_order_witness :
  ("index.docker.io" = DefaultNamespace \/ "index.docker.io" = IndexHostname) /\
  lookupV2Endpoints Demo.service "index.docker.io"
    = (Demo.default_endpoints, None) /\
  Mirrors (config Demo.service) !! 1 = Some "http://cache.test:5000" /\
  exists mirrorURL mirrorTLSConfig,
    url_Parse (mirrorAddress "http://cache.test:5000") = Ok mirrorURL /\
    newTLSConfig (Host mirrorURL)
      (isSecureIndex (config Demo.service) (Host mirrorURL))
      = Ok mirrorTLSConfig /\
    Demo.default_endpoints !! 1
      = Some (mirrorEndpoint mirrorURL mirrorTLSConfig).
Proof.
  assert ("index.docker.io" = DefaultNamespace \/
          "index.docker.io" = IndexHostname) as Hh by (right; reflexivity).
  assert (lookupV2Endpoints Demo.service "index.docker.io"
          = (Demo.default_endpoints, None)) as Hl by reflexivity.
  assert (Mirrors (config Demo.service) !! 1 = Some "http://cache.test:5000")
    as Hi by reflexivity.
  split; [exact Hh|]. split; [exact Hl|]. split; [exact Hi|].
  destruct (lookupV2Endpoints_mirror_order _ _ _ Hh Hl) as (Hm & _ & _).
  exact (Hm 1 "http://cache.test:5000" Hi).
Defined.

(** ** Both branches *)

(** C6.  Whatever the hostname and the configuration, the function
    returns either no error and a list that is not empty, or an error and
    the empty list. *)
Theorem lookupV2Endpoints_list_or_error
    {serviceConfig tls_Config} {E : Externals serviceConfig tls_Config}
    (s : defaultService serviceConfig) (hostname : string) :
  ((lookupV2Endpoints s hostname).2 = None /\
   (lookupV2Endpoints s hostname).1 <> []) \/
  ((exists err, (lookupV2Endpoints s hostname).2 = Some err) /\
   (lookupV2Endpoints s hostname).1 = []).
Proof.
  destruct (lookupV2Endpoints s hostname) as [endpoints err] eqn:Hl.
  destruct (lookupV2Endpoints_shape _ _ _ _ Hl) as [[-> Hne]|(e & -> & ->)];
    simpl.
  - by left.
  - right. split; [by exists e|done].
Qed.

(** C7.  No descriptor of a returned list is marked both [Mirror] and
    [Official], and one marked either way has [TrimHostname] set. *)
Theorem lookupV2Endpoints_mirror_official_exclusive
    {serviceConfig tls_Config} {E : Externals serviceConfig tls_Config}
    (s : defaultService serviceConfig) (hostname : string)
    (endpoints : list (APIEndpoint tls_Config))
    (endpoint : APIEndpoint tls_Config) :
  lookupV2Endpoints s hostname = (endpoints, None) ->
  endpoint ∈ endpoints ->
  ~ (Mirror endpoint = true /\ Official endpoint = true) /\
  (Mirror endpoint = true \/ Official endpoint = true ->
   TrimHostname endpoint = true).
Proof.
  intros Hl Hin.
  destruct (lookupV2Endpoints_kinds _ _ _ _ _ Hl Hin)
    as [(u & c & ->)| [->|(scheme & c & ->)]]; simpl.
  - split; [by intros [_ ?]|done].
  - split; [by intros [? _]|done].
  - split; [by intros [? _]|done].
Qed.

Lemma lookupV2Endpoints_mirror_official_exclusive_witness :
  lookupV2Endpoints Demo.service "docker.io" = (Demo.default_endpoints, None) /\
  Demo.cache_test ∈ Demo.default_endpoints /\
  ~ (Mirror Demo.cache_test = true /\ Official Demo.cache_test = true) /\
  (Mirror Demo.cache_test = true \/ Official Demo.cache_test = true ->
   TrimHostname Demo.cache_test = true).
Proof.
  assert (lookupV2Endpoints Demo.service "docker.io"
          = (Demo.default_endpoints, None)) as Hl by reflexivity.
  assert (Demo.cache_test ∈ Demo.default_endpoints) as Hin
    by (apply list_elem_of_further, list_elem_of_here).
  split; [exact Hl|]. split; [exact Hin|].
  exact (lookupV2Endpoints_mirror_official_exclusive _ _ _ _ Hl Hin).
Defined.

(** ** Errors of the default-namespace branch *)

(** C5, as amended.  An error never comes with a list.  For a sentinel
    hostname the mirrors are tried in order and the first that fails
    decides the error: when the mirrors before it parse and get their TLS
    configuration, a mirror whose address does not parse makes the
    function return the parse error as an invalid-parameter error, and
    a mirror whose TLS configuration fails makes it return that error as
    it is.  Every error of this branch arises so. *)
Theorem lookupV2Endpoints_first_failing_mirror
    {serviceConfig tls_Config} {E : Externals serviceConfig tls_Config}
    (s : defaultService serviceConfig) (hostname : string) :
  hostname = DefaultNamespace \/ hostname = IndexHostname ->
  (forall before mirror after,
     Mirrors (config s) = before ++ mirror :: after ->
     Forall (mirrorResolves s) before ->
     (forall err, url_Parse (mirrorAddress mirror) = Err err ->
        lookupV2Endpoints s hostname = ([], Some (invalidParam err)) /\
        IsInvalidParameter (invalidParam err) = true) /\
     (forall mirrorURL err,
        url_Parse (mirrorAddress mirror) = Ok mirrorURL ->
        newTLSConfig (Host mirrorURL)
          (isSecureIndex (config s) (Host mirrorURL)) = Err err ->
        lookupV2Endpoints s hostname = ([], Some err))) /\
  (forall endpoints err,
     lookupV2Endpoints s hostname = (endpoints, Some err) ->
     endpoints = [] /\
     exists before mirror after,
       Mirrors (config s) = before ++ mirror :: after /\
       Forall (mirrorResolves s) before /\
       ((exists parseErr,
           url_Parse (mirrorAddress mirror) = Err parseErr /\
           err = invalidParam parseErr) \/
        (exists mirrorURL,
           url_Parse (mirrorAddress mirror) = Ok mirrorURL /\
           newTLSConfig (Host mirrorURL)
             (isSecureIndex (config s) (Host mirrorURL)) = Err err))).
Proof.
  intros Hh. split.
  - intros before mirror after Hm Hb. split.
    + intros err Hp. split; [|done].
      apply (lookupV2Endpoints_default_Err _ _ _ _ Hh). split; [done|].
      exists before, mirror, after. split; [done|]. split; [done|].
      unfold resolveMirror. by rewrite Hp.
    + intros u err Hp Ht.
      apply (lookupV2Endpoints_default_Err _ _ _ _ Hh). split; [done|].
      exists before, mirror, after. split; [done|]. split; [done|].
      unfold resolveMirror. by rewrite Hp, Ht.
  - intros endpoints err
      (-> & before & mirror & after & Hm & Hb & Hf)%lookupV2Endpoints_default_Err;
      [|done].
    split; [done|]. exists before, mirror, after.
    split; [done|]. split; [done|].
    unfold resolveMirror in Hf.
    destruct (url_Parse (mirrorAddress mirror)) as [u|e] eqn:Hp; [right|left].
    + exists u. split; [done|].
      destruct (newTLSConfig (Host u) _) as [c|e] eqn:Ht; [discriminate|].
      by injection Hf as <-.
    + exists e. split; [done|]. by injection Hf as <-.
Qed.

Lemma lookupV2Endpoints_first_failing_mirror_witness :
  ("docker.io" = DefaultNamespace \/ "docker.io" = IndexHostname) /\
  Mirrors (config Demo.service_bad_mirror)
    = ["mirror.local"] ++ "http://[" :: [] /\
  Forall (mirrorResolves Demo.service_bad_mirror) ["mirror.local"] /\
  url_Parse (mirrorAddress "http://[")
    = Err (errorString "missing ']' in host") /\
  lookupV2Endpoints Demo.service_bad_mirror "docker.io"
    = ([], Some (invalidParam (errorString "missing ']' in host"))).
Proof.
  assert ("docker.io" = DefaultNamespace \/ "docker.io" = IndexHostname)
    as Hh by (left; reflexivity).
  assert (Mirrors (config Demo.service_bad_mirror)
          = ["mirror.local"] ++ "http://[" :: []) as Hm by reflexivity.
  assert (Forall (mirrorResolves Demo.service_bad_mirror) ["mirror.local"])
    as Hb.
  { constructor; [|constructor].
    eexists _, _. split; lazy; reflexivity. }
  assert (url_Parse (mirrorAddress "http://[")
          = Err (errorString "missing ']' in host")) as Hp by reflexivity.
  split; [exact Hh|]. split; [exact Hm|]. split; [exact Hb|].
  split; [exact Hp|].
  destruct (lookupV2Endpoints_first_failing_mirror
              Demo.service_bad_mirror "docker.io" Hh) as [Hfirst _].
  destruct (Hfirst _ _ _ Hm Hb) as [Hparse _].
  exact (proj1 (Hparse _ Hp)).
Defined.

(** C5 as it is written fails where a mirror whose TLS configuration
    fails comes before one that does not parse: the address [http://[]
    is configured and does not parse, and the error returned is the one
    of the TLS builder, which is no invalid-parameter error. *)
Lemma lookupV2Endpoints_unparsable_mirror_counterexample :
  "http://[" ∈ Mirrors (config Demo.service_two_failures) /\
  url_Parse (mirrorAddress "http://[")
    = Err (errorString "missing ']' in host") /\
  lookupV2Endpoints Demo.service_two_failures "docker.io"
    = ([], Some (errorString "x509: malformed certificate")) /\
  IsInvalidParameter (errorString "x509: malformed certificate") = false.
Proof.
  split; [apply list_elem_of_further, list_elem_of_here|].
  repeat split.
Qed.

(** ** The scheme of a mirror address *)

(** C3, as amended.  The resolver prefixes a mirror address with
    [https://] exactly when the address begins with neither [http://] nor
    [https://], and leaves it as it is otherwise; an address that carries
    no explicit scheme is among those prefixed.  Resolution of a
    configuration with such an address gives the same result as
    resolution with the address replaced by the prefixed one. *)
Theorem mirrorAddress_https_unless_http
    {serviceConfig tls_Config} {E : Externals serviceConfig tls_Config} :
  (forall mirror,
     mirrorAddress mirror = "https://" +:+ mirror <->
     strings_HasPrefix mirror "http://" = false /\
     strings_HasPrefix mirror "https://" = false) /\
  (forall mirror,
     mirrorAddress mirror = mirror <->
     strings_HasPrefix mirror "http://" = true \/
     strings_HasPrefix mirror "https://" = true) /\
  (forall mirror,
     carriesExplicitScheme mirror = false ->
     mirrorAddress mirror = "https://" +:+ mirror) /\
  (forall (s s' : defaultService serviceConfig) hostname before mirror after,
     strings_HasPrefix mirror "http://" = false ->
     strings_HasPrefix mirror "https://" = false ->
     Mirrors (config s) = before ++ mirror :: after ->
     Mirrors (config s') = before ++ ("https://" +:+ mirror) :: after ->
     (forall host,
        isSecureIndex (config s) host = isSecureIndex (config s') host) ->
     (forall host,
        allowNondistributableArtifacts (config s) host
        = allowNondistributableArtifacts (config s') host) ->
     lookupV2Endpoints s hostname = lookupV2Endpoints s' hostname).
Proof.
  assert (forall mirror,
            mirrorAddress mirror = "https://" +:+ mirror <->
            strings_HasPrefix mirror "http://" = false /\
            strings_HasPrefix mirror "https://" = false) as Hprefixed.
  { intros mirror. split; [|intros []; by apply mirrorAddress_prefixed].
    destruct (strings_HasPrefix mirror "http://") eqn:H1;
      [|destruct (strings_HasPrefix mirror "https://") eqn:H2; [|done]];
      rewrite mirrorAddress_kept by auto;
      intros Heq; symmetry in Heq; by apply https_append_neq in Heq. }
  split; [exact Hprefixed|]. split; [|split].
  - intros mirror. split; [|apply mirrorAddress_kept].
    destruct (strings_HasPrefix mirror "http://") eqn:H1; [auto|].
    destruct (strings_HasPrefix mirror "https://") eqn:H2; [auto|].
    rewrite mirrorAddress_prefixed by done.
    by intros ?%https_append_neq.
  - intros mirror Hno. apply Hprefixed.
    destruct (strings_HasPrefix mirror "http://") eqn:H1.
    { rewrite HasPrefix_carriesExplicitScheme in Hno by auto. discriminate. }
    destruct (strings_HasPrefix mirror "https://") eqn:H2; [|done].
    rewrite HasPrefix_carriesExplicitScheme in Hno by auto. discriminate.
  - intros s s' hostname before mirror after H1 H2 Hs Hs' Hsec Hana.
    apply lookupV2Endpoints_ext; try done.
    rewrite Hs, Hs', !map_app. simpl.
    by rewrite mirrorAddress_https, mirrorAddress_prefixed.
Qed.

Lemma mirrorAddress_https_unless_http_witness :
  carriesExplicitScheme "mirror.local" = false /\
  strings_HasPrefix "mirror.local" "http://" = false /\
  strings_HasPrefix "mirror.local" "https://" = false /\
  Mirrors (config Demo.service)
    = [] ++ "mirror.local" :: ["http://cache.test:5000"] /\
  Mirrors (config Demo.service_https)
    = [] ++ ("https://" +:+ "mirror.local") :: ["http://cache.test:5000"] /\
  mirrorAddress "mirror.local" = "https://" +:+ "mirror.local" /\
  lookupV2Endpoints Demo.service "docker.io"
    = lookupV2Endpoints Demo.service_https "docker.io".
Proof.
  destruct (@mirrorAddress_https_unless_http _ _ Demo.externals)
    as (_ & _ & Hno & Hsame).
  split; [reflexivity|]. split; [reflexivity|]. split; [reflexivity|].
  split; [reflexivity|]. split; [reflexivity|].
  split; [apply Hno; reflexivity|].
  apply (Hsame Demo.service Demo.service_https "docker.io"
           [] "mirror.local" ["http://cache.test:5000"]);
    reflexivity.
Defined.

(** C3 as it is written fails on an address with another scheme:
    [ftp://mirror.local] carries an explicit scheme and is prefixed all
    the same, since it begins with neither of the two prefixes the code
    tests for. *)
Lemma mirrorAddress_explicit_scheme_counterexample :
  carriesExplicitScheme "ftp://mirror.local" = true /\
  mirrorAddress "ftp://mirror.local" = "https://ftp://mirror.local" /\
  ~ (mirrorAddress "ftp://mirror.local" = "https://" +:+ "ftp://mirror.local"
     <-> carriesExplicitScheme "ftp://mirror.local" = false).
Proof.
  split; [reflexivity|]. split; [reflexivity|].
  intros [Hto _]. by specialize (Hto eq_refl).
Qed.

(** ** Determinism *)

(** C8.  The result is a function of the hostname, the mirror list and
    the results of the collaborators: two calls whose configurations hold
    the same mirrors and whose collaborators give the same results on
    every argument return the same pair, the same list of descriptors or
    the same error. *)
Theorem lookupV2Endpoints_deterministic
    {serviceConfig tls_Config} (E1 E2 : Externals serviceConfig tls_Config)
    (s1 s2 : defaultService serviceConfig) (hostname : string) :
  @Mirrors _ _ E1 (config s1) = @Mirrors _ _ E2 (config s2) ->
  (forall host,
     @isSecureIndex _ _ E1 (config s1) host
     = @isSecureIndex _ _ E2 (config s2) host) ->
  (forall host secure,
     @newTLSConfig _ _ E1 host secure = @newTLSConfig _ _ E2 host secure) ->
  (forall tlsConfig,
     @InsecureSkipVerify _ _ E1 tlsConfig
     = @InsecureSkipVerify _ _ E2 tlsConfig) ->
  (forall host,
     @allowNondistributableArtifacts _ _ E1 (config s1) host
     = @allowNondistributableArtifacts _ _ E2 (config s2) host) ->
  (forall rawURL, @url_Parse _ _ E1 rawURL = @url_Parse _ _ E2 rawURL) ->
  @DefaultNamespace _ _ E1 = @DefaultNamespace _ _ E2 ->
  @IndexHostname _ _ E1 = @IndexHostname _ _ E2 ->
  @DefaultV2Registry _ _ E1 = @DefaultV2Registry _ _ E2 ->
  @tlsconfig_ServerDefault _ _ E1 = @tlsconfig_ServerDefault _ _ E2 ->
  @lookupV2Endpoints _ _ E1 s1 hostname = @lookupV2Endpoints _ _ E2 s2 hostname.
Proof.
  intros Hm Hsec Htls Hskip Hana Hparse Hns Hix Hreg Hdef.
  apply lookupV2Endpoints_ext; try done. by rewrite Hm.
Qed.

Lemma lookupV2Endpoints_deterministic_witness :
  (forall host,
     @isSecureIndex _ _ Demo.externals (config Demo.service) host
     = @isSecureIndex _ _ Demo.externals' (config Demo.service) host) /\
  (forall host secure,
     @newTLSConfig _ _ Demo.externals host secure
     = @newTLSConfig _ _ Demo.externals' host secure) /\
  (forall rawURL,
     @url_Parse _ _ Demo.externals rawURL
     = @url_Parse _ _ Demo.externals' rawURL) /\
  @lookupV2Endpoints _ _ Demo.externals Demo.service "docker.io"
  = @lookupV2Endpoints _ _ Demo.externals' Demo.service "docker.io".
Proof.
  split; [exact (Demo_externals'_secure _)|].
  split; [exact Demo_externals'_tls|].
  split; [exact Demo_externals'_parse|].
  apply (lookupV2Endpoints_deterministic Demo.externals Demo.externals'
           Demo.service Demo.service "docker.io").
  - reflexivity.
  - exact (Demo_externals'_secure _).
  - exact Demo_externals'_tls.
  - exact Demo_externals'_skip.
  - reflexivity.
  - exact Demo_externals'_parse.
  - reflexivity.
  - reflexivity.
  - reflexivity.
  - reflexivity.
Defined.

(** ** A mirror on plain http *)

(** C9.  A mirror address that begins with [http://] is handed to the
    parser as it is.  For a sentinel hostname, a successful resolution
    holds at the mirror's index a descriptor marked [Mirror] whose URL is
    the parse of that address, and so of scheme [http], [net/url] reading
    the scheme off the front of the address. *)
Theorem lookupV2Endpoints_http_mirror_kept
    {serviceConfig tls_Config} {E : Externals serviceConfig tls_Config}
    (s : defaultService serviceConfig) (hostname : string)
    (endpoints : list (APIEndpoint tls_Config)) (i : nat) (mirror : string) :
  url_Parse_keeps_http E ->
  hostname = DefaultNamespace \/ hostname = IndexHostname ->
  lookupV2Endpoints s hostname = (endpoints, None) ->
  Mirrors (config s) !! i = Some mirror ->
  strings_HasPrefix mirror "http://" = true ->
  mirrorAddress mirror = mirror /\
  exists endpoint,
    endpoints !! i = Some endpoint /\
    Mirror endpoint = true /\
    url_Parse mirror = Ok (URL endpoint) /\
    Scheme (URL endpoint) = "http".
Proof.
  intros Hparse Hh Hl Hi Hp.
  assert (mirrorAddress mirror = mirror) as Haddr
    by (apply mirrorAddress_kept; auto).
  split; [done|].
  destruct (lookupV2Endpoints_default_Ok _ _ _ Hh Hl) as (built & Hb & ->).
  destruct (Forall2_lookup_l _ _ _ _ _ Hb Hi)
    as (ep & Hep & (u & c & Hu & _ & ->)%resolveMirror_Ok).
  rewrite Haddr in Hu.
  exists (mirrorEndpoint u c). split; [by apply lookup_app_l_Some|].
  split; [done|]. split; [done|]. simpl. by apply (Hparse mirror).
Qed.

Lemma lookupV2Endpoints_http_mirror_kept_witness :
  url_Parse_keeps_http Demo.externals /\
  ("docker.io" = DefaultNamespace \/ "docker.io" = IndexHostname) /\
  lookupV2Endpoints Demo.service "docker.io" = (Demo.default_endpoints, None) /\
  Mirrors (config Demo.service) !! 1 = Some "http://cache.test:5000" /\
  strings_HasPrefix "http://cache.test:5000" "http://" = true /\
  exists endpoint,
    Demo.default_endpoints !! 1 = Some endpoint /\
    Mirror endpoint = true /\
    url_Parse "http://cache.test:5000" = Ok (URL endpoint) /\
    Scheme (URL endpoint) = "http".
Proof.
  assert ("docker.io" = DefaultNamespace \/ "docker.io" = IndexHostname)
    as Hh by (left; reflexivity).
  assert (lookupV2Endpoints Demo.service "docker.io"
          = (Demo.default_endpoints, None)) as Hl by reflexivity.
  assert (Mirrors (config Demo.service) !! 1 = Some "http://cache.test:5000")
    as Hi by reflexivity.
  assert (strings_HasPrefix "http://cache.test:5000" "http://" = true)
    as Hp by reflexivity.
  split; [exact Demo_parse_keeps_http|].
  split; [exact Hh|]. split; [exact Hl|]. split; [exact Hi|].
  split; [exact Hp|].
  exact (proj2 (lookupV2Endpoints_http_mirror_kept _ _ _ _ _
                  Demo_parse_keeps_http Hh Hl Hi Hp)).
Defined.

(** ** Errors of the custom-hostname branch *)

(** C10, as amended.  For a hostname that is neither sentinel the
    function makes no invalid-parameter error of its own.  It fails
    exactly when the TLS builder fails on the hostname, and returns the
    builder's error as it is, whatever its kind.  The hostname is not
    parsed or validated: whenever the builder succeeds the function
    succeeds, the https descriptor of that very host first, every
    descriptor holds the hostname as the [Host] of its URL, and the
    result is the same with any other URL parser. *)
Theorem lookupV2Endpoints_custom_host_errors
    {serviceConfig tls_Config} {E : Externals serviceConfig tls_Config}
    (s : defaultService serviceConfig) (hostname : string) :
  hostname <> DefaultNamespace -> hostname <> IndexHostname ->
  (forall endpoints err,
     lookupV2Endpoints s hostname = (endpoints, Some err) <->
     endpoints = [] /\
     newTLSConfig hostname (isSecureIndex (config s) hostname) = Err err) /\
  (forall tlsConfig,
     newTLSConfig hostname (isSecureIndex (config s) hostname) = Ok tlsConfig ->
     exists first rest,
       lookupV2Endpoints s hostname = (first :: rest, None) /\
       URL first = url_URL_of "https" hostname /\
       TLSConfig first = tlsConfig) /\
  (forall endpoints err endpoint,
     lookupV2Endpoints s hostname = (endpoints, err) ->
     endpoint ∈ endpoints -> Host (URL endpoint) = hostname) /\
  (forall parse,
     @lookupV2Endpoints _ _ (with_url_Parse parse E) s hostname
     = lookupV2Endpoints s hostname).
Proof.
  intros H1 H2. split; [|split; [|split]].
  - intros endpoints err. rewrite (lookupV2Endpoints_custom _ _ H1 H2).
    destruct (newTLSConfig _ _) as [c|e]; simpl.
    + split; [discriminate|]. by intros [_ ?].
    + split; [by intros [= <- <-]|]. by intros [-> [= <-]].
  - intros tlsConfig Ht. rewrite (lookupV2Endpoints_custom _ _ H1 H2), Ht.
    simpl. by eexists _, _.
  - intros endpoints err endpoint.
    rewrite (lookupV2Endpoints_custom _ _ H1 H2).
    destruct (newTLSConfig _ _) as [c|e]; simpl.
    + intros [= <- <-] Hin.
      destruct (InsecureSkipVerify c);
        repeat (apply elem_of_cons in Hin as [->|Hin]); try done;
        by apply elem_of_nil in Hin.
    + intros [= <- <-]. by intros ?%elem_of_nil.
  - intros parse.
    rewrite (lookupV2Endpoints_custom s hostname H1 H2).
    by rewrite (@lookupV2Endpoints_custom _ _ (with_url_Parse parse E)
                  s hostname H1 H2).
Qed.

Lemma lookupV2Endpoints_custom_host_errors_witness :
  "http://[" <> DefaultNamespace /\ "http://[" <> IndexHostname /\
  url_Parse "http://[" = Err (errorString "missing ']' in host") /\
  newTLSConfig "http://[" (isSecureIndex (config Demo.service) "http://[")
    = Ok {| Demo.skipVerify := false;
            Demo.certsDir := "/etc/docker/certs.d/http://[" |} /\
  exists first rest,
    lookupV2Endpoints Demo.service "http://[" = (first :: rest, None) /\
    URL first = url_URL_of "https" "http://[" /\
    TLSConfig first = {| Demo.skipVerify := false;
                         Demo.certsDir := "/etc/docker/certs.d/http://[" |}.
Proof.
  assert ("http://[" <> DefaultNamespace) as H1 by discriminate.
  assert ("http://[" <> IndexHostname) as H2 by discriminate.
  assert (newTLSConfig "http://["
            (isSecureIndex (config Demo.service) "http://[")
          = Ok {| Demo.skipVerify := false;
                  Demo.certsDir := "/etc/docker/certs.d/http://[" |}) as Ht
    by reflexivity.
  destruct (lookupV2Endpoints_custom_host_errors Demo.service
              "http://[" H1 H2) as (_ & Hok & _ & _).
  split; [exact H1|]. split; [exact H2|]. split; [reflexivity|].
  split; [exact Ht|]. exact (Hok _ Ht).
Defined.

(** C10 as it is written fails where the TLS builder itself returns an
    invalid-parameter error: line 45 passes it on, so a custom hostname
    does get an invalid-parameter error.  The builder here keeps the
    skip-verification contract of the spec. *)
Lemma lookupV2Endpoints_custom_host_invalid_parameter_counterexample :
  "badcerts.test" <> @DefaultNamespace _ _ Demo.externals_invalid /\
  "badcerts.test" <> @IndexHostname _ _ Demo.externals_invalid /\
  newTLSConfig_skips_unless_secure Demo.externals_invalid /\
  @lookupV2Endpoints _ _ Demo.externals_invalid Demo.service "badcerts.test"
    = ([], Some (errInvalidParameter
                   (errorString "certs.d/badcerts.test: permission denied"))) /\
  IsInvalidParameter
    (errInvalidParameter
       (errorString "certs.d/badcerts.test: permission denied")) = true.
Proof.
  split; [discriminate|]. split; [discriminate|]. split; [|by split].
  intros host secure c. simpl. unfold Demo.tlsFor_invalid.
  destruct (secure && _); [discriminate|]. by intros [= <-].
Qed.

(** A hostname no URL parser would take is resolved all the same. *)
Example lookupV2Endpoints_custom_host_unparsed :
  url_Parse (mirrorAddress "http://[") = Err (errorString "missing ']' in host") /\
  (lookupV2Endpoints Demo.service "http://[").2 = None /\
  Host <$> (URL <$> (lookupV2Endpoints Demo.service "http://[").1)
    = ["http://["].
Proof. repeat split. Qed.

(** * Further properties of [lookupV2Endpoints] *)

Section Further.
Context {serviceConfig tls_Config : Type} {E : Externals serviceConfig tls_Config}.
Implicit Types (s : defaultService serviceConfig) (hostname mirror : string).
Implicit Types (endpoints : list (APIEndpoint tls_Config)).

Lemma mirrorAddress_has_scheme mirror :
  strings_HasPrefix (mirrorAddress mirror) "http://" = true \/
  strings_HasPrefix (mirrorAddress mirror) "https://" = true.
Proof.
  destruct (strings_HasPrefix mirror "http://") eqn:H1.
  { left. rewrite mirrorAddress_kept; auto. }
  destruct (strings_HasPrefix mirror "https://") eqn:H2.
  { right. rewrite mirrorAddress_kept; auto. }
  right. rewrite mirrorAddress_prefixed by done.
  apply prefix_append. by exists mirror.
Qed.

Lemma rangeMirrors_app s mirrors1 mirrors2 endpoints :
  rangeMirrors s (mirrors1 ++ mirrors2) endpoints =
  match rangeMirrors s mirrors1 endpoints with
  | Return r => Return r
  | Continue endpoints' => rangeMirrors s mirrors2 endpoints'
  end.
Proof.
  revert endpoints. induction mirrors1 as [|m ms IH]; intros endpoints; [done|].
  rewrite <- app_comm_cons, !rangeMirrors_cons.
  destruct (resolveMirror s m); [apply IH|done].
Qed.

Lemma rangeMirrors_Continue_Forall s mirrors endpoints :
  (exists endpoints', rangeMirrors s mirrors endpoints = Continue endpoints')
  <-> Forall (mirrorResolves s) mirrors.
Proof.
  split.
  - intros (eps & (built & Hb & _)%rangeMirrors_Continue).
    induction Hb as [|m ep ms built Hm _ IH]; constructor; [|done].
    apply mirrorResolves_iff. by exists ep.
  - intros Hall. revert endpoints.
    induction Hall as [|m ms (ep & Hm)%mirrorResolves_iff _ IH];
      intros endpoints.
    + by exists endpoints.
    + rewrite rangeMirrors_cons, Hm. apply IH.
Qed.

End Further.

(** X1.  Every descriptor the function returns, for any hostname, is a
    version-2 endpoint with [TrimHostname] set. *)
Theorem lookupV2Endpoints_all_version2
    {serviceConfig tls_Config} {E : Externals serviceConfig tls_Config}
    (s : defaultService serviceConfig) (hostname : string)
    (endpoints : list (APIEndpoint tls_Config)) (err : option error)
    (endpoint : APIEndpoint tls_Config) :
  lookupV2Endpoints s hostname = (endpoints, err) ->
  endpoint ∈ endpoints ->
  Version endpoint = APIVersion2 /\ TrimHostname endpoint = true.
Proof.
  intros Hl Hin.
  by destruct (lookupV2Endpoints_kinds _ _ _ _ _ Hl Hin)
    as [(u & c & ->)| [->|(scheme & c & ->)]].
Qed.

Lemma lookupV2Endpoints_all_version2_witness :
  lookupV2Endpoints Demo.service "registry.insecure.test"
    = ([Demo.insecure_https; Demo.insecure_http], None) /\
  Demo.insecure_http ∈ [Demo.insecure_https; Demo.insecure_http] /\
  Version Demo.insecure_http = APIVersion2 /\
  TrimHostname Demo.insecure_http = true.
Proof.
  assert (lookupV2Endpoints Demo.service "registry.insecure.test"
          = ([Demo.insecure_https; Demo.insecure_http], None)) as Hl
    by reflexivity.
  assert (Demo.insecure_http ∈ [Demo.insecure_https; Demo.insecure_http])
    as Hin by (apply list_elem_of_further, list_elem_of_here).
  split; [exact Hl|]. split; [exact Hin|].
  exact (lookupV2Endpoints_all_version2 _ _ _ _ _ Hl Hin).
Defined.

(** X2.  For a sentinel hostname the nondistributable-artifact policy is
    not consulted: every descriptor has [AllowNondistributableArtifacts]
    unset, and is marked either [Mirror] or [Official], one of the two. *)
Theorem lookupV2Endpoints_default_namespace_flags
    {serviceConfig tls_Config} {E : Externals serviceConfig tls_Config}
    (s : defaultService serviceConfig) (hostname : string)
    (endpoints : list (APIEndpoint tls_Config)) (err : option error)
    (endpoint : APIEndpoint tls_Config) :
  hostname = DefaultNamespace \/ hostname = IndexHostname ->
  lookupV2Endpoints s hostname = (endpoints, err) ->
  endpoint ∈ endpoints ->
  AllowNondistributableArtifacts endpoint = false /\
  Mirror endpoint = negb (Official endpoint).
Proof.
  intros Hh Hl Hin.
  destruct (lookupV2Endpoints_shape _ _ _ _ Hl) as [[-> _]|(e & -> & ->)];
    [|by apply elem_of_nil in Hin].
  destruct (lookupV2Endpoints_default_Ok _ _ _ Hh Hl) as (built & Hb & ->).
  apply list_elem_of_lookup in Hin as [i Hi].
  by destruct (default_lookup_inv _ _ _ _ _ Hb Hi)
    as [(_ & m & _ & (u & c & _ & _ & ->)%resolveMirror_Ok)|[_ ->]].
Qed.

Lemma lookupV2Endpoints_default_namespace_flags_witness :
  ("docker.io" = DefaultNamespace \/ "docker.io" = IndexHostname) /\
  lookupV2Endpoints Demo.service "docker.io" = (Demo.default_endpoints, None) /\
  Demo.cache_test ∈ Demo.default_endpoints /\
  AllowNondistributableArtifacts Demo.cache_test = false /\
  Mirror Demo.cache_test = negb (Official Demo.cache_test).
Proof.
  assert ("docker.io" = DefaultNamespace \/ "docker.io" = IndexHostname)
    as Hh by (left; reflexivity).
  assert (lookupV2Endpoints Demo.service "docker.io"
          = (Demo.default_endpoints, None)) as Hl by reflexivity.
  assert (Demo.cache_test ∈ Demo.default_endpoints) as Hin
    by (apply list_elem_of_further, list_elem_of_here).
  split; [exact Hh|]. split; [exact Hl|]. split; [exact Hin|].
  exact (lookupV2Endpoints_default_namespace_flags _ _ _ _ _ Hh Hl Hin).
Defined.

(** X3.  The two sentinels are resolved alike: the default namespace and
    the index hostname give the same list or the same error. *)
Theorem lookupV2Endpoints_sentinels_agree
    {serviceConfig tls_Config} {E : Externals serviceConfig tls_Config}
    (s : defaultService serviceConfig) :
  lookupV2Endpoints s DefaultNamespace = lookupV2Endpoints s IndexHostname.
Proof.
  rewrite (lookupV2Endpoints_default s DefaultNamespace) by auto.
  by rewrite (lookupV2Endpoints_default s IndexHostname) by auto.
Qed.

(** X4.  The mirrors play no part for a custom hostname: two
    configurations that classify the hostname alike give the same result,
    whatever their mirror lists hold, an address that does not parse
    included. *)
Theorem lookupV2Endpoints_custom_host_ignores_mirrors
    {serviceConfig tls_Config} {E : Externals serviceConfig tls_Config}
    (s s' : defaultService serviceConfig) (hostname : string) :
  hostname <> DefaultNamespace -> hostname <> IndexHostname ->
  isSecureIndex (config s) hostname = isSecureIndex (config s') hostname ->
  allowNondistributableArtifacts (config s) hostname
    = allowNondistributableArtifacts (config s') hostname ->
  lookupV2Endpoints s hostname = lookupV2Endpoints s' hostname.
Proof.
  intros H1 H2 Hsec Hana.
  rewrite (lookupV2Endpoints_custom s _ H1 H2).
  rewrite (lookupV2Endpoints_custom s' _ H1 H2).
  by rewrite Hsec, Hana.
Qed.

Lemma lookupV2Endpoints_custom_host_ignores_mirrors_witness :
  "mirror.local" <> DefaultNamespace /\ "mirror.local" <> IndexHostname /\
  Mirrors (config Demo.service_bad_mirror) = ["mirror.local"; "http://["] /\
  Mirrors (config Demo.service)
    = ["mirror.local"; "http://cache.test:5000"] /\
  lookupV2Endpoints Demo.service "mirror.local"
    = lookupV2Endpoints Demo.service_bad_mirror "mirror.local".
Proof.
  assert ("mirror.local" <> DefaultNamespace) as H1 by discriminate.
  assert ("mirror.local" <> IndexHostname) as H2 by discriminate.
  split; [exact H1|]. split; [exact H2|].
  split; [reflexivity|]. split; [reflexivity|].
  apply (lookupV2Endpoints_custom_host_ignores_mirrors
           Demo.service Demo.service_bad_mirror "mirror.local" H1 H2);
    reflexivity.
Defined.

(** X5.  For a custom hostname no descriptor is marked [Mirror] or
    [Official], and each URL is the bare scheme and host: https or http,
    the hostname, and an empty path. *)
Theorem lookupV2Endpoints_custom_host_flags
    {serviceConfig tls_Config} {E : Externals serviceConfig tls_Config}
    (s : defaultService serviceConfig) (hostname : string)
    (endpoints : list (APIEndpoint tls_Config)) (err : option error)
    (endpoint : APIEndpoint tls_Config) :
  hostname <> DefaultNamespace -> hostname <> IndexHostname ->
  lookupV2Endpoints s hostname = (endpoints, err) ->
  endpoint ∈ endpoints ->
  Mirror endpoint = false /\ Official endpoint = false /\
  (URL endpoint = url_URL_of "https" hostname \/
   URL endpoint = url_URL_of "http" hostname).
Proof.
  intros H1 H2. rewrite (lookupV2Endpoints_custom _ _ H1 H2).
  destruct (newTLSConfig _ _) as [c|e]; simpl.
  - intros [= <- <-] Hin.
    destruct (InsecureSkipVerify c);
      repeat (apply elem_of_cons in Hin as [->|Hin]); simpl; auto;
      by apply elem_of_nil in Hin.
  - intros [= <- <-]. by intros ?%elem_of_nil.
Qed.

Lemma lookupV2Endpoints_custom_host_flags_witness :
  "registry.insecure.test" <> DefaultNamespace /\
  "registry.insecure.test" <> IndexHostname /\
  lookupV2Endpoints Demo.service "registry.insecure.test"
    = ([Demo.insecure_https; Demo.insecure_http], None) /\
  Mirror Demo.insecure_http = false /\ Official Demo.insecure_http = false /\
  (URL Demo.insecure_http = url_URL_of "https" "registry.insecure.test" \/
   URL Demo.insecure_http = url_URL_of "http" "registry.insecure.test").
Proof.
  assert ("registry.insecure.test" <> DefaultNamespace) as H1 by discriminate.
  assert ("registry.insecure.test" <> IndexHostname) as H2 by discriminate.
  assert (lookupV2Endpoints Demo.service "registry.insecure.test"
          = ([Demo.insecure_https; Demo.insecure_http], None)) as Hl
    by reflexivity.
  split; [exact H1|]. split; [exact H2|]. split; [exact Hl|].
  apply (lookupV2Endpoints_custom_host_flags _ _ _ _ _ H1 H2 Hl).
  apply list_elem_of_further, list_elem_of_here.
Defined.

(** X6.  For a sentinel hostname the resolution succeeds exactly when
    every configured mirror parses and gets its TLS configuration; with
    no mirror configured it cannot fail and returns the official registry
    alone. *)
Theorem lookupV2Endpoints_default_succeeds_iff
    {serviceConfig tls_Config} {E : Externals serviceConfig tls_Config}
    (s : defaultService serviceConfig) (hostname : string) :
  hostname = DefaultNamespace \/ hostname = IndexHostname ->
  ((lookupV2Endpoints s hostname).2 = None <->
   Forall (mirrorResolves s) (Mirrors (config s))) /\
  (Mirrors (config s) = [] ->
   lookupV2Endpoints s hostname = ([officialEndpoint], None)).
Proof.
  intros Hh. rewrite (lookupV2Endpoints_default _ _ Hh). split.
  - rewrite <- (rangeMirrors_Continue_Forall s _ []).
    destruct (rangeMirrors _ _ _) as [r|eps] eqn:Hr; simpl.
    + apply rangeMirrors_Return in Hr as (?&?&?& e &_&_&_&->). simpl.
      split; [discriminate|]. by intros [? [=]].
    + split; [|done]. intros _. by exists eps.
  - by intros ->.
Qed.

Lemma lookupV2Endpoints_default_succeeds_iff_witness :
  ("docker.io" = DefaultNamespace \/ "docker.io" = IndexHostname) /\
  (lookupV2Endpoints Demo.service_bad_mirror "docker.io").2 <> None /\
  ~ Forall (mirrorResolves Demo.service_bad_mirror)
      (Mirrors (config Demo.service_bad_mirror)).
Proof.
  assert ("docker.io" = DefaultNamespace \/ "docker.io" = IndexHostname)
    as Hh by (left; reflexivity).
  assert ((lookupV2Endpoints Demo.service_bad_mirror "docker.io").2 <> None)
    as Hl by discriminate.
  split; [exact Hh|]. split; [exact Hl|].
  intros Hall. apply Hl.
  exact (proj2 (proj1 (lookupV2Endpoints_default_succeeds_iff
                         Demo.service_bad_mirror "docker.io" Hh)) Hall).
Defined.

(** X7.  The address handed to [url.Parse] for a mirror always begins
    with [http://] or [https://], and prefixing is done once: an address
    that went through is left as it is. *)
Theorem mirrorAddress_scheme_idempotent (mirror : string) :
  (strings_HasPrefix (mirrorAddress mirror) "http://" = true \/
   strings_HasPrefix (mirrorAddress mirror) "https://" = true) /\
  mirrorAddress (mirrorAddress mirror) = mirrorAddress mirror.
Proof.
  split; [apply mirrorAddress_has_scheme|].
  apply mirrorAddress_kept, mirrorAddress_has_scheme.
Qed.

(** X8.  Mirrors added after the configured ones change nothing before
    them: an error of the shorter configuration is the error of the
    longer one, and a success of the longer one starts with the mirror
    descriptors of the shorter one, which succeeds too. *)
Theorem lookupV2Endpoints_mirrors_appended
    {serviceConfig tls_Config} {E : Externals serviceConfig tls_Config}
    (s s' : defaultService serviceConfig) (hostname : string)
    (more : list string) :
  hostname = DefaultNamespace \/ hostname = IndexHostname ->
  Mirrors (config s') = Mirrors (config s) ++ more ->
  (forall host, isSecureIndex (config s) host = isSecureIndex (config s') host) ->
  (forall endpoints err,
     lookupV2Endpoints s hostname = (endpoints, Some err) ->
     lookupV2Endpoints s' hostname = ([], Some err)) /\
  (forall endpoints',
     lookupV2Endpoints s' hostname = (endpoints', None) ->
     exists built built',
       length built = length (Mirrors (config s)) /\
       lookupV2Endpoints s hostname = (built ++ [officialEndpoint], None) /\
       endpoints' = built ++ built' ++ [officialEndpoint]).
Proof.
  intros Hh Hm Hsec.
  rewrite (lookupV2Endpoints_default s _ Hh).
  rewrite (lookupV2Endpoints_default s' _ Hh).
  rewrite Hm, rangeMirrors_app.
  rewrite <- (rangeMirrors_ext E E s s' (fun _ => eq_refl)
                (fun _ _ => eq_refl) Hsec (Mirrors (config s))
                (Mirrors (config s)) [] eq_refl).
  destruct (rangeMirrors s (Mirrors (config s)) []) as [r|built] eqn:Hr.
  - apply rangeMirrors_Return in Hr as (?&?&?& e &_&_&_&->). split.
    + by intros endpoints err [= <- <-].
    + intros endpoints'. discriminate.
  - split; [discriminate|]. intros endpoints'.
    destruct (rangeMirrors s' more built) as [r|eps] eqn:Hr'.
    + apply rangeMirrors_Return in Hr' as (?&?&?& e &_&_&_&->). discriminate.
    + apply rangeMirrors_Continue in Hr' as (built' & _ & ->).
      apply rangeMirrors_Continue in Hr as (b & Hb & ->). simpl.
      intros [= <-]. exists b, built'.
      split; [symmetry; by eapply Forall2_length|].
      split; [done|]. by rewrite <- app_assoc.
Qed.

Lemma lookupV2Endpoints_mirrors_appended_witness :
  ("docker.io" = DefaultNamespace \/ "docker.io" = IndexHostname) /\
  Mirrors (config Demo.service_two_failures)
    = Mirrors (config (mkService {| Demo.mirrors := ["badcerts.test"];
                                    Demo.insecureRegistries := [];
                                    Demo.nondistributableHosts := [] |}))
      ++ ["http://["] /\
  lookupV2Endpoints Demo.service_two_failures "docker.io"
    = ([], Some (errorString "x509: malformed certificate")).
Proof.
  assert ("docker.io" = DefaultNamespace \/ "docker.io" = IndexHostname)
    as Hh by (left; reflexivity).
  split; [exact Hh|]. split; [reflexivity|].
  refine (proj1 (lookupV2Endpoints_mirrors_appended
                   (mkService {| Demo.mirrors := ["badcerts.test"];
                                 Demo.insecureRegistries := [];
                                 Demo.nondistributableHosts := [] |})
                   Demo.service_two_failures "docker.io" ["http://["]
                   Hh eq_refl (fun _ => eq_refl)) [] _ _).
  reflexivity.
Defined.

(** * Properties of the containerd worker *)

Section ContainerdFacts.
Import containerd.

Lemma strings_Contains_unfold (s substr : string) :
  strings_Contains s substr =
  String.prefix substr s ||
  match s with
  | EmptyString => false
  | String _ s' => strings_Contains s' substr
  end.
Proof. by destruct s. Qed.

Lemma strings_Contains_iff (s substr : string) :
  strings_Contains s substr = true <->
  exists before after, s = before +:+ substr +:+ after.
Proof.
  split.
  - induction s as [|c s IH]; rewrite strings_Contains_unfold.
    + rewrite orb_false_r. intros [rest ->]%prefix_append. by exists "", rest.
    + intros [[rest ->]%prefix_append|(a & b & ->)%IH]%orb_true_iff.
      * by exists "", rest.
      * by exists (String c a), b.
  - intros (a & b & ->). induction a as [|c a IH].
    + rewrite strings_Contains_unfold.
      apply orb_true_iff. left. apply prefix_append. by exists b.
    + change (String c a +:+ substr +:+ b)
        with (String c (a +:+ substr +:+ b)).
      rewrite strings_Contains_unfold, IH. apply orb_true_r.
Qed.

Lemma runs_interp {T : Types} {A W : Type}
    (answer : forall X, call X -> W -> X * W) (p : prog A) (w w' : W)
    (a : A) (trace : list event) :
  interp answer p w = (a, w', trace) -> runs p trace a.
Proof.
  revert w w' a trace. induction p as [a'|X c k IH]; intros w w' a trace.
  - simpl. by intros [= <- <- <-].
  - simpl. destruct (answer X c w) as [x w1].
    destruct (interp answer (k x) w1) as [[a1 w2] tr1] eqn:Hk.
    intros [= <- <- <-]. exists x, tr1. split; [done|]. by eapply IH.
Qed.

(** Case analysis of a run, call by call. *)
Ltac run_cases H :=
  repeat (cbn [runs] in H;
    lazymatch type of H with
    | runs (if ?b then _ else _) _ _ => destruct b eqn:?
    | runs (match ?x with _ => _ end) _ _ => destruct x
    | ex _ =>
        let x := fresh "x" in
        let tr := fresh "tr" in
        destruct H as (x & tr & -> & H)
    end).

(** A run of [newContainerd] that returns no error: its eight calls and
    their answers, and the fields of the result. *)
Lemma newContainerd_success {T : Types} {D : Deps}
    (client : Client) (workerOpts : WorkerOptions.t)
    (trace : list event) (opt : WorkerOpt.t) :
  runs (newContainerd client workerOpts) trace (opt, None) ->
  let root := filepath_Join [WorkerOptions.Root workerOpts;
                "containerd-" +:+ WorkerOptions.SnapshotterName workerOpts] in
  let lm := leaseutil_WithNamespace (client_LeasesService client)
              (WorkerOptions.Namespace workerOpts) in
  let cs := containerdsnapshot_NewContentStore (client_ContentStore client)
              (WorkerOptions.Namespace workerOpts) in
  let snap := containerdsnapshot_NewSnapshotter
                (WorkerOptions.SnapshotterName workerOpts)
                (client_SnapshotService client
                   (WorkerOptions.SnapshotterName workerOpts))
                (WorkerOptions.Namespace workerOpts) None in
  exists id serverInfo np npResolvedMode hostnameAnswer plugins md,
    strings_Contains (WorkerOptions.SnapshotterName workerOpts) "/" = false /\
    plugins <> [] /\
    trace =
      [Event (os_MkdirAll root 448) None;
       Event (base_ID root) (Ok id);
       Event (Introspection_Server client) (Ok serverInfo);
       Event (netproviders_Providers (WorkerOptions.NetworkOpt workerOpts))
         (Ok (np, npResolvedMode));
       Event os_Hostname hostnameAnswer;
       Event (Introspection_Plugins client
                ["type==io.containerd.runtime.v1";
                 "type==io.containerd.runtime.v2"]) (Ok plugins);
       Event (cache_MigrateV2 (filepath_Join [root; "metadata.db"])
                (filepath_Join [root; "metadata_v2.db"]) cs snap lm) None;
       Event (metadata_NewStore (filepath_Join [root; "metadata_v2.db"]))
         (Ok md)] /\
    WorkerOpt.ID opt = id /\
    WorkerOpt.Root opt = root /\
    WorkerOpt.Labels opt =
      xlabels workerOpts
        (match hostnameAnswer with Ok hostname => hostname
                                | Err _ => "unknown" end)
        npResolvedMode serverInfo /\
    WorkerOpt.MetadataStore opt = Some md /\
    WorkerOpt.Platforms opt = platformSpecs plugins /\
    WorkerOpt.LeaseManager opt = Some lm /\
    WorkerOpt.GarbageCollect opt = Some (gc lm) /\
    WorkerOpt.MountPoolRoot opt = filepath_Join [root; "cachemounts"].
Proof.
  intros H. unfold newContainerd in H. run_cases H;
    destruct H as [-> [= ->]]; try discriminate.
  intros root lm cs snap.
  match goal with
  | Hn : (length ?plugins =? 0) = false |- _ =>
      assert (plugins <> []) by (by intros ->)
  end.
  by eexists _, _, _, _, _, _, _.
Qed.

(** The two loops append the normalised platforms plugin after plugin. *)
Lemma platformSpecs_bind {T : Types} {D : Deps} (plugins : list Plugin) :
  platformSpecs plugins =
  plugins ≫= (fun plugin =>
    (fun p => platforms_Normalize
                {| OS := PluginPlatform_OS p;
                   Architecture := PluginPlatform_Architecture p;
                   Variant := PluginPlatform_Variant p;
                   OSVersion := "";
                   OSFeatures := [] |}) <$> Plugin_Platforms plugin).
Proof.
  unfold platformSpecs.
  set (f := fun p => platforms_Normalize _).
  assert (forall ps acc,
            foldl (fun acc p => acc ++ [f p]) acc ps = acc ++ (f <$> ps))
    as Hinner.
  { induction ps as [|p ps IH]; intros acc; simpl.
    - by rewrite app_nil_r.
    - rewrite IH. by rewrite <- app_assoc. }
  assert (forall pls acc,
            foldl (fun acc plugin =>
                     foldl (fun acc p => acc ++ [f p]) acc
                       (Plugin_Platforms plugin)) acc pls
            = acc ++ (pls ≫= fun plugin => f <$> Plugin_Platforms plugin))
    as Houter.
  { induction pls as [|pl pls IH]; intros acc; simpl.
    - by rewrite app_nil_r.
    - rewrite IH, Hinner. by rewrite <- app_assoc. }
  apply (Houter plugins []).
Qed.

(** The runs of the demo. *)
Lemma Demo_runs :
  runs (newContainerd "client" Demo.workerOpts) Demo.trace (Demo.opt, None).
Proof. by apply (runs_interp Demo.answer _ 0 8). Qed.

Lemma Demo_runs_no_plugins :
  runs (newContainerd "client" Demo.workerOpts) Demo.trace_no_plugins
    (WorkerOpt.zero,
     Some (errors_New "failed to find any runtime plugins")).
Proof. by apply (runs_interp Demo.answer_no_plugins _ 0 6). Qed.

Lemma Demo_labels_NoDup :
  NoDup [wlabel_Executor; wlabel_Snapshotter; wlabel_Hostname;
         wlabel_Network; wlabel_SELinuxEnabled; wlabel_ApparmorProfile;
         wlabel_ContainerdNamespace; wlabel_ContainerdUUID].
Proof. apply (bool_decide_unpack _). by vm_compute. Qed.

Lemma newContainerd_slash {T : Types} {D : Deps}
    (client : Client) (workerOpts : WorkerOptions.t) :
  (exists before after,
     WorkerOptions.SnapshotterName workerOpts = before +:+ "/" +:+ after) ->
  newContainerd client workerOpts =
  Ret (WorkerOpt.zero,
       Some (errors_Errorf "bad snapshotter name: %q"
               [WorkerOptions.SnapshotterName workerOpts])).
Proof.
  unfold newContainerd. intros Hs%strings_Contains_iff. by rewrite Hs.
Qed.

(** The keys of a list without duplicates are different from each
    other. *)
Ltac nodup_ne H :=
  repeat (apply NoDup_cons in H as [? H]);
  repeat match goal with
         | Hn : _ ∉ _ :: _ |- _ => apply not_elem_of_cons in Hn as [? Hn]
         end.

(** An event that is in a trace is one of its events; [proj] tells
    which. *)
Ltac event_cases Hin proj :=
  repeat (apply elem_of_cons in Hin as [Hin|Hin];
          [apply (f_equal proj) in Hin; cbn in Hin;
           try discriminate Hin|]);
  try (by apply elem_of_nil in Hin).

(** X9.  A snapshotter name with a slash in it is refused before any
    call is made: [newContainerd] returns the bad-name error at once, and
    nothing is created.  Any other name has the worker's directory,
    [containerd-] and the name under the root, created first, with
    permission 0700. *)
Theorem newContainerd_rejects_slash {T : Types} {D : Deps}
    (client : Client) (workerOpts : WorkerOptions.t) :
  ((exists before after,
      WorkerOptions.SnapshotterName workerOpts = before +:+ "/" +:+ after) ->
   newContainerd client workerOpts =
   Ret (WorkerOpt.zero,
        Some (errors_Errorf "bad snapshotter name: %q"
                [WorkerOptions.SnapshotterName workerOpts]))) /\
  (~ (exists before after,
        WorkerOptions.SnapshotterName workerOpts = before +:+ "/" +:+ after) ->
   forall trace r,
     runs (newContainerd client workerOpts) trace r ->
     exists answer trace',
       trace =
       Event (os_MkdirAll
                (filepath_Join
                   [WorkerOptions.Root workerOpts;
                    "containerd-" +:+
                    WorkerOptions.SnapshotterName workerOpts]) 448)
         answer :: trace').
Proof.
  unfold newContainerd. split.
  - intros Hs%strings_Contains_iff. by rewrite Hs.
  - intros Hs trace r.
    destruct (strings_Contains _ _) eqn:Hc.
    + by apply strings_Contains_iff in Hc.
    + cbn [runs]. intros (x & tr & -> & _). by exists x, tr.
Qed.

Lemma newContainerd_rejects_slash_witness :
  (exists before after,
     WorkerOptions.SnapshotterName Demo.workerOpts_slash
     = before +:+ "/" +:+ after) /\
  newContainerd "client" Demo.workerOpts_slash =
  Ret (WorkerOpt.zero,
       Some (errors_Errorf "bad snapshotter name: %q" ["../overlayfs"])).
Proof.
  assert (exists before after,
            WorkerOptions.SnapshotterName Demo.workerOpts_slash
            = before +:+ "/" +:+ after) as Hs
    by (by exists "..", "overlayfs").
  split; [exact Hs|].
  exact (proj1 (newContainerd_rejects_slash "client" Demo.workerOpts_slash)
           Hs).
Defined.

(** X10.  [NewWorkerOpt] returns an error together with the zero
    [base.WorkerOpt] and nothing else, and no error together with a
    worker that has its metadata store and its executor. *)
Theorem NewWorkerOpt_error_or_worker {T : Types} {D : Deps}
    (workerOpts : WorkerOptions.t) (opts : list Opt)
    (trace : list event) (opt : WorkerOpt.t) (err : option error) :
  runs (NewWorkerOpt workerOpts opts) trace (opt, err) ->
  match err with
  | Some _ => opt = WorkerOpt.zero
  | None =>
      is_Some (WorkerOpt.MetadataStore opt) /\
      is_Some (WorkerOpt.Executor opt) /\
      is_Some (WorkerOpt.GarbageCollect opt)
  end.
Proof.
  intros H. unfold NewWorkerOpt, newContainerd in H. run_cases H;
    destruct H as [-> [= -> ->]]; done.
Qed.

Lemma NewWorkerOpt_error_or_worker_witness :
  runs (NewWorkerOpt Demo.workerOpts ["WithTimeout"])
    Demo.run_NewWorkerOpt.2 (Demo.run_NewWorkerOpt.1.1.1, None) /\
  is_Some (WorkerOpt.MetadataStore Demo.run_NewWorkerOpt.1.1.1) /\
  is_Some (WorkerOpt.Executor Demo.run_NewWorkerOpt.1.1.1) /\
  is_Some (WorkerOpt.GarbageCollect Demo.run_NewWorkerOpt.1.1.1).
Proof.
  assert (runs (NewWorkerOpt Demo.workerOpts ["WithTimeout"])
            Demo.run_NewWorkerOpt.2 (Demo.run_NewWorkerOpt.1.1.1, None))
    as Hr by (by apply (runs_interp Demo.answer _ 0 9)).
  split; [exact Hr|].
  exact (NewWorkerOpt_error_or_worker _ _ _ _ _ Hr).
Defined.

(** X11.  The labels given in the options win: every label of
    [workerOpts.Labels] is a label of the worker, with the value given,
    also where it names one of the worker's own keys. *)
Theorem newContainerd_labels_override {T : Types} {D : Deps}
    (client : Client) (workerOpts : WorkerOptions.t)
    (trace : list event) (opt : WorkerOpt.t) (key value : string) :
  runs (newContainerd client workerOpts) trace (opt, None) ->
  WorkerOptions.Labels workerOpts !! key = Some value ->
  WorkerOpt.Labels opt !! key = Some value.
Proof.
  intros (id & si & np & mode & hn & pls & md & _ & _ & _ & _ & _ & Hl & _)
    %newContainerd_success Hk.
  rewrite Hl. unfold xlabels. by apply lookup_union_Some_l.
Qed.

Lemma newContainerd_labels_override_witness :
  runs (newContainerd "client" Demo.workerOpts) Demo.trace (Demo.opt, None) /\
  WorkerOptions.Labels Demo.workerOpts !! wlabel_Executor = Some "custom" /\
  WorkerOpt.Labels Demo.opt !! wlabel_Executor = Some "custom".
Proof.
  assert (WorkerOptions.Labels Demo.workerOpts !! wlabel_Executor
          = Some "custom") as Hk by (by vm_compute).
  split; [exact Demo_runs|]. split; [exact Hk|].
  exact (newContainerd_labels_override _ _ _ _ _ _ Demo_runs Hk).
Defined.



(** Walking an index through a trace that is written out. *)
Ltac index_cases i Hi tac :=
  repeat (destruct i as [|i];
          [apply (inj Some) in Hi; tac | cbn in Hi]);
  try discriminate Hi.

(** X13.  A failure of [os.Hostname] does not fail the worker.  In every
    run the call that follows a failed [os.Hostname] is the listing of
    the runtime plugins; when every other call succeeds and a plugin is
    listed, the run with the failed [os.Hostname] returns a worker and
    no error, and the hostname label of that worker is [unknown].  In
    any run that returns no error the hostname label is [unknown] after
    a failure and the name [os.Hostname] answered otherwise. *)
Theorem newContainerd_hostname_label {T : Types} {D : Deps}
    (client : Client) (workerOpts : WorkerOptions.t) :
  let root := filepath_Join [WorkerOptions.Root workerOpts;
                "containerd-" +:+ WorkerOptions.SnapshotterName workerOpts] in
  let filters := ["type==io.containerd.runtime.v1";
                  "type==io.containerd.runtime.v2"] in
  let keys := [wlabel_Executor; wlabel_Snapshotter; wlabel_Hostname;
               wlabel_Network; wlabel_SELinuxEnabled; wlabel_ApparmorProfile;
               wlabel_ContainerdNamespace; wlabel_ContainerdUUID] in
  (forall trace r i err,
     runs (newContainerd client workerOpts) trace r ->
     trace !! i = Some (Event os_Hostname (Err err)) ->
     exists answer,
       trace !! S i = Some (Event (Introspection_Plugins client filters)
                              answer)) /\
  (~ (exists before after,
        WorkerOptions.SnapshotterName workerOpts = before +:+ "/" +:+ after) ->
   forall id serverInfo np npResolvedMode err plugins md,
     plugins <> [] ->
     exists opt,
       runs (newContainerd client workerOpts)
         [Event (os_MkdirAll root 448) None;
          Event (base_ID root) (Ok id);
          Event (Introspection_Server client) (Ok serverInfo);
          Event (netproviders_Providers (WorkerOptions.NetworkOpt workerOpts))
            (Ok (np, npResolvedMode));
          Event os_Hostname (Err err);
          Event (Introspection_Plugins client filters) (Ok plugins);
          Event (cache_MigrateV2 (filepath_Join [root; "metadata.db"])
                   (filepath_Join [root; "metadata_v2.db"])
                   (containerdsnapshot_NewContentStore
                      (client_ContentStore client)
                      (WorkerOptions.Namespace workerOpts))
                   (containerdsnapshot_NewSnapshotter
                      (WorkerOptions.SnapshotterName workerOpts)
                      (client_SnapshotService client
                         (WorkerOptions.SnapshotterName workerOpts))
                      (WorkerOptions.Namespace workerOpts) None)
                   (leaseutil_WithNamespace (client_LeasesService client)
                      (WorkerOptions.Namespace workerOpts))) None;
          Event (metadata_NewStore (filepath_Join [root; "metadata_v2.db"]))
            (Ok md)]
         (opt, None) /\
       (NoDup keys ->
        WorkerOptions.Labels workerOpts !! wlabel_Hostname = None ->
        WorkerOpt.Labels opt !! wlabel_Hostname = Some "unknown")) /\
  (forall trace opt,
     runs (newContainerd client workerOpts) trace (opt, None) ->
     NoDup keys ->
     WorkerOptions.Labels workerOpts !! wlabel_Hostname = None ->
     (forall err, Event os_Hostname (Err err) ∈ trace ->
        WorkerOpt.Labels opt !! wlabel_Hostname = Some "unknown") /\
     (forall hostname, Event os_Hostname (Ok hostname) ∈ trace ->
        WorkerOpt.Labels opt !! wlabel_Hostname = Some hostname)).
Proof.
  intros root filters keys.
  assert (forall hostname npResolvedMode serverInfo,
            NoDup keys ->
            WorkerOptions.Labels workerOpts !! wlabel_Hostname = None ->
            xlabels workerOpts hostname npResolvedMode serverInfo
              !! wlabel_Hostname = Some hostname) as Hlabel.
  { intros hostname mode si Hnd Hgiven. unfold xlabels. nodup_ne Hnd.
    rewrite (lookup_union_r _ _ _ Hgiven).
    destruct (String.eqb _ _); by simplify_map_eq. }
  split; [|split].
  - intros trace [opt e] i err H Hi. unfold newContainerd in H.
    run_cases H; destruct H as [-> _];
      index_cases i Hi
        ltac:(apply (f_equal (@Hostname_answer T)) in Hi; cbn in Hi;
              first [discriminate Hi | by eexists]).
  - intros Hs id si np mode err plugins md Hne.
    assert (strings_Contains (WorkerOptions.SnapshotterName workerOpts) "/"
            = false) as Hc.
    { destruct (strings_Contains _ _) eqn:Hc; [|done].
      by apply strings_Contains_iff in Hc. }
    assert ((length plugins =? 0) = false) as Hlen by (by destruct plugins).
    eexists. split.
    + unfold newContainerd. rewrite Hc. cbn [runs].
      do 5 (eexists _, _; split; [reflexivity|]; cbn [runs]).
      eexists _, _. split; [reflexivity|]. cbn [runs]. rewrite Hlen.
      cbn [runs].
      do 2 (eexists _, _; split; [reflexivity|]; cbn [runs]).
      split; reflexivity.
    + intros Hnd Hgiven. cbn [WorkerOpt.Labels]. by apply Hlabel.
  - intros trace opt
      (id & si & np & mode & hn & pls & md & _ & _ & Htr & _ & _ & Hl & _)
      %newContainerd_success Hnd Hgiven.
    assert (forall answer, Event os_Hostname answer ∈ trace -> hn = answer)
      as Hhn.
    { intros answer Hin. rewrite Htr in Hin.
      event_cases Hin (@Hostname_answer T). congruence. }
    rewrite Hl, (Hlabel _ _ _ Hnd Hgiven). split.
    + by intros err ->%Hhn.
    + by intros hostname ->%Hhn.
Qed.

Lemma newContainerd_hostname_label_witness :
  runs (newContainerd "client" Demo.workerOpts) Demo.trace (Demo.opt, None) /\
  WorkerOptions.Labels Demo.workerOpts !! wlabel_Hostname = None /\
  Demo.trace !! 4
  = Some (Event os_Hostname
            (Err (external_error "hostname: not available"))) /\
  Event os_Hostname (Err (external_error "hostname: not available"))
    ∈ Demo.trace /\
  ~ (exists before after,
       WorkerOptions.SnapshotterName Demo.workerOpts
       = before +:+ "/" +:+ after) /\
  Demo.plugins <> [] /\
  (exists answer,
     Demo.trace !! 5
     = Some (Event (Introspection_Plugins "client"
                      ["type==io.containerd.runtime.v1";
                       "type==io.containerd.runtime.v2"]) answer)) /\
  (exists opt,
     runs (newContainerd "client" Demo.workerOpts) Demo.trace (opt, None) /\
     (NoDup [wlabel_Executor; wlabel_Snapshotter; wlabel_Hostname;
             wlabel_Network; wlabel_SELinuxEnabled; wlabel_ApparmorProfile;
             wlabel_ContainerdNamespace; wlabel_ContainerdUUID] ->
      WorkerOptions.Labels Demo.workerOpts !! wlabel_Hostname = None ->
      WorkerOpt.Labels opt !! wlabel_Hostname = Some "unknown")) /\
  WorkerOpt.Labels Demo.opt !! wlabel_Hostname = Some "unknown".
Proof.
  assert (WorkerOptions.Labels Demo.workerOpts !! wlabel_Hostname = None)
    as Hk by (by vm_compute).
  assert (Demo.trace !! 4
          = Some (Event os_Hostname
                    (Err (external_error "hostname: not available"))))
    as Hi by reflexivity.
  assert (Event os_Hostname (Err (external_error "hostname: not available"))
          ∈ Demo.trace) as Hin
    by (do 4 apply list_elem_of_further; apply list_elem_of_here).
  assert (~ (exists before after,
               WorkerOptions.SnapshotterName Demo.workerOpts
               = before +:+ "/" +:+ after)) as Hno.
  { intros Hs%strings_Contains_iff. discriminate Hs. }
  assert (Demo.plugins <> []) as Hne by discriminate.
  destruct (@newContainerd_hostname_label Demo.types Demo.deps
              "client" Demo.workerOpts) as (Hnext & Hexists & Hlabel).
  split; [exact Demo_runs|]. split; [exact Hk|]. split; [exact Hi|].
  split; [exact Hin|]. split; [exact Hno|]. split; [exact Hne|].
  split; [exact (Hnext _ _ _ _ Demo_runs Hi)|].
  split.
  - exact (Hexists Hno "worker-id" "uuid-1234" "providers" "host"
             (external_error "hostname: not available") Demo.plugins
             "bolt:/var/lib/buildkit/containerd-overlayfs/metadata_v2.db"
             Hne).
  - exact (proj1 (Hlabel _ _ Demo_runs Demo_labels_NoDup Hk) _ Hin).
Defined.

(** X14.  The platforms of the worker are those of the runtime plugins
    containerd listed, plugin after plugin and platform after platform,
    each normalised from its OS, architecture and variant alone.  The
    list of plugins is not empty, but the platforms may be: plugins
    without platforms give a worker without platforms. *)
Theorem newContainerd_platforms {T : Types} {D : Deps}
    (client : Client) (workerOpts : WorkerOptions.t)
    (trace : list event) (opt : WorkerOpt.t)
    (client' : Client) (filters : list string) (plugins : list Plugin) :
  runs (newContainerd client workerOpts) trace (opt, None) ->
  Event (Introspection_Plugins client' filters) (Ok plugins) ∈ trace ->
  plugins <> [] /\
  WorkerOpt.Platforms opt =
    (plugins ≫= fun plugin =>
       (fun p => platforms_Normalize
                   {| OS := PluginPlatform_OS p;
                      Architecture := PluginPlatform_Architecture p;
                      Variant := PluginPlatform_Variant p;
                      OSVersion := "";
                      OSFeatures := [] |}) <$> Plugin_Platforms plugin) /\
  length (WorkerOpt.Platforms opt)
  = sum_list ((fun plugin => length (Plugin_Platforms plugin)) <$> plugins) /\
  (Forall (fun plugin => Plugin_Platforms plugin = []) plugins ->
   WorkerOpt.Platforms opt = []).
Proof.
  intros (id & si & np & mode & hn & pls & md & _ & Hne & Htr & _ & _ & _
          & _ & Hp & _)%newContainerd_success Hin.
  assert (pls = plugins) as ->.
  { rewrite Htr in Hin. event_cases Hin (@Plugins_answer T). congruence. }
  rewrite Hp, platformSpecs_bind. split; [done|]. split; [done|].
  clear. split.
  - induction plugins as [|pl pls IH]; [done|].
    by rewrite bind_cons, length_app, length_fmap, IH, fmap_cons.
  - induction 1 as [|pl pls Hpl _ IH]; [done|].
    by rewrite bind_cons, Hpl, IH.
Qed.

Lemma newContainerd_platforms_witness :
  runs (newContainerd "client" Demo.workerOpts) Demo.trace (Demo.opt, None) /\
  Event (Introspection_Plugins "client"
           ["type==io.containerd.runtime.v1";
            "type==io.containerd.runtime.v2"]) (Ok Demo.plugins)
    ∈ Demo.trace /\
  length (WorkerOpt.Platforms Demo.opt)
  = sum_list ((fun plugin => length (Plugin_Platforms plugin))
                <$> Demo.plugins).
Proof.
  assert (Event (Introspection_Plugins "client"
                   ["type==io.containerd.runtime.v1";
                    "type==io.containerd.runtime.v2"]) (Ok Demo.plugins)
          ∈ Demo.trace) as Hin
    by (do 5 apply list_elem_of_further; apply list_elem_of_here).
  split; [exact Demo_runs|]. split; [exact Hin|].
  destruct (newContainerd_platforms _ _ _ _ _ _ _ Demo_runs Hin)
    as (_ & _ & Hlen & _).
  exact Hlen.
Defined.

(** X15.  When containerd lists no runtime plugin the worker is not
    built: [newContainerd] returns the error that it found none, with
    the zero [base.WorkerOpt], and neither migrates the metadata nor
    opens the metadata store. *)
Theorem newContainerd_no_plugins {T : Types} {D : Deps}
    (client : Client) (workerOpts : WorkerOptions.t)
    (trace : list event) (opt : WorkerOpt.t) (err : option error)
    (client' : Client) (filters : list string) :
  runs (newContainerd client workerOpts) trace (opt, err) ->
  Event (Introspection_Plugins client' filters) (Ok []) ∈ trace ->
  err = Some (errors_New "failed to find any runtime plugins") /\
  opt = WorkerOpt.zero /\
  Forall (fun ev => kind_of ev <> MigrateV2 /\ kind_of ev <> NewStore) trace.
Proof.
  intros H Hin. unfold newContainerd in H. run_cases H;
    destruct H as [-> [= -> ->]];
    event_cases Hin (@Plugins_answer T);
    try (injection Hin as <-; discriminate).
  split; [done|]. split; [done|].
  repeat (constructor; [by split|]). constructor.
Qed.

Lemma newContainerd_no_plugins_witness :
  runs (newContainerd "client" Demo.workerOpts) Demo.trace_no_plugins
    (WorkerOpt.zero,
     Some (errors_New "failed to find any runtime plugins")) /\
  Event (Introspection_Plugins "client"
           ["type==io.containerd.runtime.v1";
            "type==io.containerd.runtime.v2"]) (Ok [])
    ∈ Demo.trace_no_plugins /\
  Forall (fun ev => kind_of ev <> MigrateV2 /\ kind_of ev <> NewStore)
    Demo.trace_no_plugins.
Proof.
  assert (Event (Introspection_Plugins "client"
                   ["type==io.containerd.runtime.v1";
                    "type==io.containerd.runtime.v2"]) (Ok [])
          ∈ Demo.trace_no_plugins) as Hin
    by (do 5 apply list_elem_of_further; apply list_elem_of_here).
  split; [exact Demo_runs_no_plugins|]. split; [exact Hin|].
  destruct (newContainerd_no_plugins _ _ _ _ _ _ _ Demo_runs_no_plugins Hin)
    as (_ & _ & Hnone).
  exact Hnone.
Defined.

(** X16.  [newContainerd] makes its calls in one order, each once: the
    calls of a run are a front part of the sequence directory, worker
    ID, server, network providers, hostname, plugins, migration, metadata
    store, and all of it when no error is returned.  A call that fails,
    [os.Hostname] apart, is the last call of its run, and the run
    returns an error; [os.Hostname] is never the last call, whatever it
    answers.  A run that returns an error has made no call, or ends with
    a call that failed or with a listing of no plugin. *)
Theorem newContainerd_call_order {T : Types} {D : Deps}
    (client : Client) (workerOpts : WorkerOptions.t)
    (trace : list event) (opt : WorkerOpt.t) (err : option error) :
  runs (newContainerd client workerOpts) trace (opt, err) ->
  (kind_of <$> trace) `prefix_of` newContainerd_calls /\
  (err = None -> kind_of <$> trace = newContainerd_calls) /\
  (forall i ev,
     trace !! i = Some ev -> failed ev = true -> kind_of ev <> Hostname ->
     S i = length trace /\ err <> None) /\
  (forall i ev,
     trace !! i = Some ev -> kind_of ev = Hostname -> S i < length trace) /\
  (err <> None ->
   trace = [] \/
   exists ev,
     last trace = Some ev /\
     ((failed ev = true /\ kind_of ev <> Hostname) \/
      Plugins_answer ev = Some (Ok []))).
Proof.
  intros H. unfold newContainerd in H. run_cases H;
    destruct H as [-> [= -> ->]];
    (split; [by eexists|]); (split; [done|]);
    (split; [|split]).
  all: try (intros i ev Hi Hf Hk;
            index_cases i Hi
              ltac:(subst ev; cbn in Hf, Hk;
                    first [discriminate Hf | done
                          | split; [reflexivity|discriminate]])).
  all: try (intros i ev Hi Hk;
            index_cases i Hi
              ltac:(subst ev; cbn in Hk;
                    first [discriminate Hk | cbn; lia])).
  all: intros Herr; try done.
  all: try (by left).
  all: right; eexists; (split; [reflexivity|]); cbn.
  all: try (left; split; [reflexivity|discriminate]).
  all: right; match goal with
              | Hn : (length ?pls =? 0) = true |- _ => by destruct pls
              end.
Qed.

Lemma newContainerd_call_order_witness :
  runs (newContainerd "client" Demo.workerOpts) Demo.trace_no_plugins
    (WorkerOpt.zero,
     Some (errors_New "failed to find any runtime plugins")) /\
  (kind_of <$> Demo.trace_no_plugins) `prefix_of` newContainerd_calls /\
  (exists ev,
     last Demo.trace_no_plugins = Some ev /\
     ((failed ev = true /\ kind_of ev <> Hostname) \/
      Plugins_answer ev = Some (Ok []))).
Proof.
  destruct (newContainerd_call_order _ _ _ _ _ Demo_runs_no_plugins)
    as (Hprefix & _ & _ & _ & Hlast).
  split; [exact Demo_runs_no_plugins|]. split; [exact Hprefix|].
  destruct (Hlast ltac:(discriminate)) as [Hnil|Hev]; [discriminate Hnil|].
  exact Hev.
Defined.

(** X17.  The metadata store that is opened is [metadata_v2.db] in the
    worker's directory, and it is opened only after the migration to
    that very file has returned without an error. *)
Theorem newContainerd_store_after_migration {T : Types} {D : Deps}
    (client : Client) (workerOpts : WorkerOptions.t)
    (trace : list event) (r : WorkerOpt.t * option error)
    (ev : event) (dbPath : string) :
  runs (newContainerd client workerOpts) trace r ->
  ev ∈ trace ->
  NewStore_path ev = Some dbPath ->
  dbPath =
    filepath_Join
      [filepath_Join
         [WorkerOptions.Root workerOpts;
          "containerd-" +:+ WorkerOptions.SnapshotterName workerOpts];
       "metadata_v2.db"] /\
  exists from cs snap lm before after,
    trace = before ++ Event (cache_MigrateV2 from dbPath cs snap lm) None
                   :: after /\
    ev ∈ after.
Proof.
  intros H Hin Hp. unfold newContainerd in H. run_cases H;
    destruct H as [-> _];
    repeat (apply elem_of_cons in Hin as [->|Hin]; [try discriminate Hp|]);
    try (by apply elem_of_nil in Hin);
    injection Hp as <-; (split; [done|]);
    eexists _, _, _, _, [_; _; _; _; _; _], _;
    (split; [reflexivity|]); apply list_elem_of_here.
Qed.

Lemma newContainerd_store_after_migration_witness :
  runs (newContainerd "client" Demo.workerOpts) Demo.trace (Demo.opt, None) /\
  Event (metadata_NewStore
           "/var/lib/buildkit/containerd-overlayfs/metadata_v2.db")
    (Ok "bolt:/var/lib/buildkit/containerd-overlayfs/metadata_v2.db")
    ∈ Demo.trace /\
  "/var/lib/buildkit/containerd-overlayfs/metadata_v2.db" =
    filepath_Join
      [filepath_Join
         [WorkerOptions.Root Demo.workerOpts;
          "containerd-" +:+ WorkerOptions.SnapshotterName Demo.workerOpts];
       "metadata_v2.db"].
Proof.
  assert (Event (metadata_NewStore
                   "/var/lib/buildkit/containerd-overlayfs/metadata_v2.db")
            (Ok "bolt:/var/lib/buildkit/containerd-overlayfs/metadata_v2.db")
          ∈ Demo.trace) as Hin
    by (do 7 apply list_elem_of_further; apply list_elem_of_here).
  split; [exact Demo_runs|]. split; [exact Hin|].
  exact (proj1 (newContainerd_store_after_migration _ _ _ _ _ _
                  Demo_runs Hin eq_refl)).
Defined.

(** X18.  The garbage collection of the worker works on the lease
    manager of the worker.  It creates a lease and deletes it again,
    synchronously and by its ID alone; it returns the error of the
    deletion, no error at all when the lease could not be created, and
    never any statistics. *)
Theorem newContainerd_GarbageCollect {T : Types} {D : Deps}
    (client : Client) (workerOpts : WorkerOptions.t)
    (trace : list event) (opt : WorkerOpt.t) :
  runs (newContainerd client workerOpts) trace (opt, None) ->
  exists lm collect,
    lm = leaseutil_WithNamespace (client_LeasesService client)
           (WorkerOptions.Namespace workerOpts) /\
    WorkerOpt.LeaseManager opt = Some lm /\
    WorkerOpt.GarbageCollect opt = Some collect /\
    forall trace' stats err,
      runs collect trace' (stats, err) ->
      stats = None /\
      ((exists createErr,
          trace' = [Event (lm_Create lm) (Err createErr)] /\ err = None) \/
       (exists l,
          trace' =
            [Event (lm_Create lm) (Ok l);
             Event (lm_Delete lm
                      {| Lease.ID := Lease.ID l;
                         Lease.CreatedAt := Time_zero;
                         Lease.Labels := ∅ |}
                      [leases_SynchronousDelete]) err])).
Proof.
  intros (id & si & np & mode & hn & pls & md & _ & _ & _ & _ & _ & _ & _
          & _ & Hlm & Hgc & _)%newContainerd_success.
  eexists _, _. split; [reflexivity|]. split; [exact Hlm|].
  split; [exact Hgc|].
  intros trace' stats err H. unfold gc in H. run_cases H;
    destruct H as [-> [= -> ->]]; (split; [done|]).
  - right. by eexists.
  - left. by eexists.
Qed.

Lemma newContainerd_GarbageCollect_witness :
  runs (newContainerd "client" Demo.workerOpts) Demo.trace (Demo.opt, None) /\
  WorkerOpt.GarbageCollect Demo.opt = Some (gc "client.LeasesService@buildkit") /\
  runs (gc "client.LeasesService@buildkit") Demo.run_gc.2 (None, None) /\
  Demo.run_gc.2 =
    [Event (lm_Create "client.LeasesService@buildkit") (Ok Demo.lease);
     Event (lm_Delete "client.LeasesService@buildkit"
              {| Lease.ID := "lease-1"; Lease.CreatedAt := 0;
                 Lease.Labels := ∅ |} ["SynchronousDelete"]) None].
Proof.
  destruct (newContainerd_GarbageCollect _ _ _ _ Demo_runs)
    as (lm & collect & -> & _ & Hgc & _).
  split; [exact Demo_runs|]. split; [reflexivity|].
  split; [by apply (runs_interp Demo.answer _ 0 2)|]. reflexivity.
Defined.

(** X19.  [NewWorkerOpt] connects first, to the address of the options
    and with the caller's client options followed by the default
    namespace.  When the connection fails that is the only call, and the
    error returned wraps its error; when it succeeds the rest is
    [newContainerd] on the client, so that a snapshotter name with a
    slash is refused only then, with nothing else done. *)
Theorem NewWorkerOpt_connects_first {T : Types} {D : Deps}
    (workerOpts : WorkerOptions.t) (opts : list Opt)
    (trace : list event) (r : WorkerOpt.t * option error) :
  runs (NewWorkerOpt workerOpts opts) trace r ->
  exists answer trace',
    trace =
      Event (ctd_New (WorkerOptions.Address workerOpts)
               (opts ++ [ctd_WithDefaultNamespace
                           (WorkerOptions.Namespace workerOpts)]))
        answer :: trace' /\
    match answer with
    | Err err =>
        trace' = [] /\
        r = (WorkerOpt.zero,
             Some (errors_Wrapf err
                     "failed to connect client to %q . make sure containerd is running"
                     [WorkerOptions.Address workerOpts]))
    | Ok client =>
        runs (newContainerd client workerOpts) trace' r /\
        ((exists before after,
            WorkerOptions.SnapshotterName workerOpts
            = before +:+ "/" +:+ after) ->
         trace' = [] /\
         r = (WorkerOpt.zero,
              Some (errors_Errorf "bad snapshotter name: %q"
                      [WorkerOptions.SnapshotterName workerOpts])))
    end.
Proof.
  unfold NewWorkerOpt. cbn [runs]. intros (x & tr & -> & H).
  exists x, tr. split; [done|]. destruct x as [client|err].
  - split; [done|]. intros Hs.
    rewrite (newContainerd_slash _ _ Hs) in H. exact H.
  - exact H.
Qed.

Lemma NewWorkerOpt_connects_first_witness :
  runs (NewWorkerOpt Demo.workerOpts_slash []) Demo.run_NewWorkerOpt_slash.2
    (WorkerOpt.zero,
     Some (errors_Errorf "bad snapshotter name: %q" ["../overlayfs"])) /\
  exists answer trace',
    Demo.run_NewWorkerOpt_slash.2 =
      Event (ctd_New "/run/containerd/containerd.sock"
               ["WithDefaultNamespace:buildkit"]) answer :: trace'.
Proof.
  assert (runs (NewWorkerOpt Demo.workerOpts_slash [])
            Demo.run_NewWorkerOpt_slash.2
            (WorkerOpt.zero,
             Some (errors_Errorf "bad snapshotter name: %q" ["../overlayfs"])))
    as Hr by (by apply (runs_interp Demo.answer _ 0 1)).
  split; [exact Hr|].
  destruct (NewWorkerOpt_connects_first _ _ _ _ Hr)
    as (answer & trace' & Htr & _).
  by exists answer, trace'.
Defined.

End ContainerdFacts.
